(** * Bounce Tennis Shot Tracker: a shallow embedding of [app.py]

    The script is a single linear Streamlit page: load the detector, take an
    upload, open it with OpenCV, run the detector on every frame while
    counting shots and re-encoding the annotated frames, then show the tally,
    a coaching tip and a download button.

    The embedding follows the script statement by statement, from the model
    loading on (the page header before it is static markup).  Every call that
    has an effect outside the script (Streamlit widgets, the capture, the
    writer, the detector) appends one event to a log; the two variables the
    loop mutates ([shot_counter] and [i]) live in the state next to the log.
    Library calls whose result the script cannot determine (YOLO, OpenCV,
    tempfile, uuid, random) are fields of an environment record.

    Numbers: Python [int] is [Z]; the floats the script handles (capture
    properties, class ids, pixel values, the progress fraction) are modelled
    by the rationals they denote, so infinities and NaN are outside the
    model.  The product on line 128 is rounded to the array's dtype: its
    rounding is a function of the environment, of which only monotonicity
    and exactness on the whole numbers 0..255 are known. *)

From Stdlib Require Import ZArith QArith Qround Lia Lqa Sorted.
From stdpp Require Import gmap strings list pretty.

Open Scope Z_scope.

(** ** Python values and operators used by the script *)

Inductive Exn :=
| ZeroDivisionError
| AttributeError (attr : string)
| LibraryError (msg : string).

Module Py.

(** [int(x)] on a float: truncation towards zero. *)
Definition int (x : Q) : Z := Z.quot (Qnum x) (Zpos (Qden x)).

(** [x or d] on a float [x]: a float is falsy exactly when it is zero. *)
Definition or_ (x d : Q) : Q := if Qeq_bool x 0 then d else x.

(** [min(a, b)]: the first argument unless the second is smaller. *)
Definition min (a b : Q) : Q := if Qle_bool a b then a else b.

(** [a / b] on two ints: true division, raising on a zero divisor. *)
Definition truediv (a b : Z) : Exn + Q :=
  if decide (b = 0) then inl ZeroDivisionError
  else inr (inject_Z a / inject_Z b)%Q.

End Py.

(** ** Images: [numpy] arrays of shape (rows, columns, 3) *)

Inductive Dtype := uint8 | uint16 | float32 | float64.

Global Instance Dtype_eq_dec : EqDecision Dtype.
Proof. solve_decision. Defined.


Definition Pixel : Type := Q * Q * Q.

Record ndarray := mk_ndarray { dtype : Dtype; px : list (list Pixel) }.

(** [a.shape[0]] and [a.shape[1]]. *)
Definition shape0 (a : ndarray) : Z := Z.of_nat (length (px a)).
Definition shape1 (a : ndarray) : Z := Z.of_nat (length (hd [] (px a))).

Definition pixel_map (f : Q -> Q) (p : Pixel) : Pixel :=
  let '(c0, c1, c2) := p in (f c0, f c1, f c2).

Definition elementwise (f : Q -> Q) (a : ndarray) : ndarray :=
  {| dtype := dtype a; px := map (map (pixel_map f)) (px a) |}.

Module np.

(** [np.clip(a, lo, hi)] on one element: [minimum(maximum(x, lo), hi)]. *)
Definition clip1 (lo hi x : Q) : Q :=
  let m := if Qle_bool lo x then x else lo in
  if Qle_bool m hi then m else hi.

Definition clip (a : ndarray) (lo hi : Q) : ndarray :=
  elementwise (clip1 lo hi) a.

(** [k * a]: every product is rounded to the array's dtype by [fl]. *)
Definition mul (fl : Q -> Q) (k : Q) (a : ndarray) : ndarray :=
  elementwise (fun x => fl (k * x)%Q) a.

(** [a.astype(np.uint8)]: truncate, then wrap modulo 256. *)
Definition to_uint8 (x : Q) : Q := inject_Z (Py.int x mod 256).

Definition astype_uint8 (a : ndarray) : ndarray :=
  {| dtype := uint8; px := map (map (pixel_map to_uint8)) (px a) |}.

End np.

Module cv2.

Inductive CapProp :=
| CAP_PROP_FRAME_COUNT | CAP_PROP_FRAME_WIDTH
| CAP_PROP_FRAME_HEIGHT | CAP_PROP_FPS.

(** [cv2.cvtColor(a, cv2.COLOR_RGB2BGR)]: channels 0 and 2 trade places. *)
Definition swap_rb (p : Pixel) : Pixel :=
  let '(c0, c1, c2) := p in (c2, c1, c0).

Definition cvtColor_RGB2BGR (a : ndarray) : ndarray :=
  {| dtype := dtype a; px := map (map swap_rb) (px a) |}.

(** What [cv2.VideoCapture(path)] gives the script: whether it opened, the
    properties [cap.get] reports, and the results of the successive
    [cap.read()] calls ([Some frame] for [(True, frame)], [None] for a
    failed read); reading past the end of the list fails as well. *)
Record VideoCapture := {
  isOpened : bool;
  get : CapProp -> Q;
  reads : list (option ndarray);
}.

End cv2.

(** ** [collections.Counter]: a dict in insertion order, missing keys read 0 *)

Module Counter.

Definition t : Type := list (string * Z).

Definition empty : t := [].

(** [c[k]] *)
Fixpoint get (c : t) (k : string) : Z :=
  match c with
  | [] => 0
  | (k', v) :: rest => if decide (k = k') then v else get rest k
  end.

(** [c[k] = v]: overwrite in place, or append a new key at the end. *)
Fixpoint set (c : t) (k : string) (v : Z) : t :=
  match c with
  | [] => [(k, v)]
  | (k', v') :: rest =>
      if decide (k = k') then (k', v) :: rest else (k', v') :: set rest k v
  end.

(** [c[k] += 1] *)
Definition incr (c : t) (k : string) : t := set c k (get c k + 1).

(** [c.items()] *)
Definition items (c : t) : list (string * Z) := c.

(** [bool(c)] *)
Definition truthy (c : t) : bool :=
  match c with [] => false | _ => true end.

(** The sum of all counts, [sum(c.values())]. *)
Definition total (c : t) : Z := foldr (fun kv acc => kv.2 + acc) 0 c.

End Counter.

(** ** Constants of the script *)

Definition MODEL_PATH : string := "my_model.pt".

Definition class_map : gmap Z string :=
  {[ 0 := "Forehand"; 1 := "Backhand"; 2 := "Serve" ]}.

Definition feedback_tips : list string := [
  "Add more topspin by brushing up the back of the ball on forehands and backhands.";
  "Practice 20 serves in a row focusing only on ball toss consistency.";
  "Hit cross-court forehands for 5 minutes to improve rally reliability.";
  "Work on split-steps before every shot to stay balanced and ready.";
  "Shadow swing 15 backhands slowly to refine technique and footwork.";
  "Do 10 minutes of volley practice, aiming to keep the racquet head stable.";
  "Rally with a partner but only allowed to hit deep to the baseline.";
  "Play '2 cross-court, 1 down the line' to build shot variety.";
  "Practice approach shots followed by finishing volleys at the net.";
  "Focus on recovery steps after each shot to return to the centre quickly."
].

(** ** The detector *)

(** One detection; [cls0] is [box.cls[0].item()]. *)
Record Box := { cls0 : Q }.

(** [results[0]] of [model.predict]: the detections and what [.plot()]
    returns ([None] for Python's [None]). *)
Record Results := { boxes : list Box; plot : option ndarray }.

(** A loaded model: [model.predict(frame, ...)] returns or raises. *)
Definition Detector : Type := ndarray -> string + Results.

(** ** The environment of one run *)

Record UploadedFile := { name : string; content : list Byte.byte }.

(** The arithmetic of [numpy] on arrays of a dtype: [round_to d x] is the
    value of dtype [d] that stores the exact result [x].  Rounding keeps the
    order of results, and the whole numbers from 0 to 255 are stored exactly
    in every dtype the script meets. *)
Record FloatArith := {
  round_to : Dtype -> Q -> Q;
  round_to_mono :
    forall d x y, (x <= y)%Q -> (round_to d x <= round_to d y)%Q;
  round_to_exact :
    forall d k, 0 <= k <= 255 -> (round_to d (inject_Z k) == inject_Z k)%Q;
}.

Record Env := {
  (** [YOLO(path)]: the loaded model, or the message of the exception *)
  YOLO : string -> string + Detector;
  (** what [st.file_uploader] returns *)
  uploaded_file : option UploadedFile;
  (** [os.path.splitext(name)[1]] *)
  splitext_ext : string -> string;
  (** the [.name] of [tempfile.NamedTemporaryFile(suffix=...)] *)
  NamedTemporaryFile : string -> string;
  gettempdir : string;
  os_path_join : string -> string -> string;
  uuid4_hex : string;
  VideoCapture : string -> cv2.VideoCapture;
  (** [cv2.resize(a, (w, h))]: the resized image, or the message of the
      exception *)
  resize : ndarray -> Z * Z -> string + ndarray;
  (** [writer.write(a)]: [Some msg] when the call raises *)
  write_raises : ndarray -> option string;
  (** [random.choice] *)
  random_choice : list string -> string;
  (** the files on disk when the run ends; this is what the download guard
      sees in a run that gets there *)
  disk_at_end : gmap string (list Byte.byte);
  (** the rounding of products of array elements *)
  float_arith : FloatArith;
}.

Definition os_path_exists (fs : gmap string (list Byte.byte)) (p : string)
  : bool :=
  bool_decide (is_Some (fs !! p)).

Definition os_path_getsize (fs : gmap string (list Byte.byte)) (p : string)
  : string + Z :=
  match fs !! p with
  | Some data => inr (Z.of_nat (length data))
  | None => inl "FileNotFoundError"
  end.

(** [open(p, "rb").read()] *)
Definition read_file (fs : gmap string (list Byte.byte)) (p : string)
  : string + list Byte.byte :=
  match fs !! p with
  | Some data => inr data
  | None => inl "FileNotFoundError"
  end.

(** ** Observable effects *)

Inductive Event :=
| load_model (path : string)
| st_error (msg : string)
| st_info (msg : string)
| st_subheader (msg : string)
| st_markdown (msg : string)
| st_tip (tip : string)  (* the [st.markdown] call of lines 151-158 *)
| st_progress (value : Q)
| st_empty
| progress_bar_progress (value : Q)
| status_text_text (msg : string)
| st_download_button (label : string) (data : list Byte.byte)
    (file_name mime : string)
| temp_in_write (path : string) (data : list Byte.byte)
| VideoCapture_open (path : string)
| cap_read (ret : option ndarray)
| cap_release
| VideoWriter_open (path fourcc : string) (fps : Q) (size : Z * Z)
| writer_write (frame : ndarray)
| writer_release
| model_predict (frame : ndarray).

(** ** State and control: a state monad with two ways to leave the script *)

Record World := {
  log : list Event;
  shot_counter : Counter.t;
  i : Z;
}.

Definition world0 : World :=
  {| log := []; shot_counter := Counter.empty; i := 0 |}.

(** [Val a]: the statement finished; [Stop]: [st.stop()] ended the script;
    [Raise e]: an exception nobody catches ended it. *)
Inductive Res (A : Type) :=
| Val (a : A)
| Stop
| Raise (e : Exn).
Arguments Val {A} a.
Arguments Stop {A}.
Arguments Raise {A} e.

Definition M (A : Type) : Type := World -> Res A * World.

Definition ret {A} (a : A) : M A := fun w => (Val a, w).

Definition bind {A B} (c : M A) (k : A -> M B) : M B :=
  fun w =>
    match c w with
    | (Val a, w') => k a w'
    | (Stop, w') => (Stop, w')
    | (Raise e, w') => (Raise e, w')
    end.

Notation "x <- c ;; k" := (bind c (fun x => k))
  (at level 100, c at next level, right associativity, only parsing).
Notation "c ;;; k" := (bind c (fun _ => k))
  (at level 100, right associativity, only parsing).

Definition emit (e : Event) : M unit :=
  fun w =>
    (Val tt,
     {| log := log w ++ [e]; shot_counter := shot_counter w; i := i w |}).

Definition st_stop {A} : M A := fun w => (Stop, w).

Definition raise {A} (e : Exn) : M A := fun w => (Raise e, w).

(** A library call that returns or raises. *)
Definition call {A} (r : string + A) : M A :=
  match r with
  | inl msg => raise (LibraryError msg)
  | inr a => ret a
  end.

(** An operator of the language that returns or raises. *)
Definition eval {A} (r : Exn + A) : M A :=
  match r with
  | inl e => raise e
  | inr a => ret a
  end.

Definition get_i : M Z := fun w => (Val (i w), w).

Definition set_i (n : Z) : M unit :=
  fun w =>
    (Val tt, {| log := log w; shot_counter := shot_counter w; i := n |}).

Definition get_shot_counter : M Counter.t :=
  fun w => (Val (shot_counter w), w).

Definition set_shot_counter (c : Counter.t) : M unit :=
  fun w => (Val tt, {| log := log w; shot_counter := c; i := i w |}).

(** [for x in xs: body(x)] *)
Fixpoint for_ {A} (xs : list A) (body : A -> M unit) : M unit :=
  match xs with
  | [] => ret tt
  | x :: rest => body x ;;; for_ rest body
  end.

(** ** The script *)

(** Line 121: [cls_id = int(box.cls[0].item())]. *)
Definition class_id (box : Box) : Z := Py.int (cls0 box).

(** Lines 120-123, one iteration: [shot_counter[class_map[cls_id]] += 1]
    when [cls_id in class_map]. *)
Definition count_shot (shot_counter : Counter.t) (box : Box) : Counter.t :=
  let cls_id := class_id box in
  match class_map !! cls_id with
  | Some label => Counter.incr shot_counter label
  | None => shot_counter
  end.

(** Lines 93-96. *)
Definition frame_count (cap : cv2.VideoCapture) : Z :=
  Py.int (Py.or_ (cv2.get cap cv2.CAP_PROP_FRAME_COUNT) 0).
Definition width (cap : cv2.VideoCapture) : Z :=
  Py.int (Py.or_ (cv2.get cap cv2.CAP_PROP_FRAME_WIDTH) 0).
Definition height (cap : cv2.VideoCapture) : Z :=
  Py.int (Py.or_ (cv2.get cap cv2.CAP_PROP_FRAME_HEIGHT) 0).
Definition fps (cap : cv2.VideoCapture) : Q :=
  Py.or_ (cv2.get cap cv2.CAP_PROP_FPS) 25.0.

Section Script.

Variable env : Env.

(** Lines 44-48: [try: model = load_model(MODEL_PATH) except ...]. *)
Definition load_stage : M Detector :=
  emit (load_model MODEL_PATH) ;;;
  match YOLO env MODEL_PATH with
  | inr model => ret model
  | inl e =>
      emit (st_error ("❌ Failed to load model at '" +:+ MODEL_PATH
                      +:+ "': " +:+ e)) ;;;
      st_stop
  end.

(** Lines 72-75. *)
Definition upload_stage : M UploadedFile :=
  match uploaded_file env with
  | None => emit (st_info "Please upload a video to begin.") ;;; st_stop
  | Some f => ret f
  end.

(** Lines 78-81. *)
Definition video_path (up : UploadedFile) : string :=
  NamedTemporaryFile env (splitext_ext env (name up)).

(** Lines 84-85. *)
Definition out_path : string :=
  os_path_join env (gettempdir env)
    ("processed_" +:+ uuid4_hex env +:+ ".mp4").

(** Lines 120-123: [for box in results[0].boxes: ...]. *)
Definition count_shots (bs : list Box) : M unit :=
  for_ bs (fun box =>
    c <- get_shot_counter ;;
    set_shot_counter (count_shot c box)).

(** Lines 125-130; they touch nothing but the local [annotated].  Reading
    [.dtype] off [None] would raise. *)
Definition normalize (width height : Z) (annotated : option ndarray)
    (frame : ndarray) : Exn + ndarray :=
  let annotated :=
    match annotated with None => Some frame | Some a => Some a end in
  match annotated with
  | None => inl (AttributeError "dtype")
  | Some annotated =>
      let annotated :=
        if decide (dtype annotated <> uint8)
        then np.astype_uint8
               (np.mul (round_to (float_arith env) (dtype annotated)) 255
                  (np.clip annotated 0 1))
        else annotated in
      if decide ((shape1 annotated, shape0 annotated) <> (width, height))
      then match resize env annotated (width, height) with
           | inl msg => inl (LibraryError msg)
           | inr resized => inr resized
           end
      else inr annotated
  end.

(** Line 132, the call of the writer. *)
Definition write (a : ndarray) : M unit :=
  match write_raises env a with
  | Some msg => raise (LibraryError msg)
  | None => emit (writer_write a)
  end.

(** Lines 116-137: the body of the loop after a successful read. *)
Definition process_frame (model : Detector) (frame_count width height : Z)
    (frame : ndarray) : M unit :=
  emit (model_predict frame) ;;;
  results <- call (model frame) ;;
  let annotated := plot results in
  count_shots (boxes results) ;;;
  annotated <- eval (normalize width height annotated frame) ;;
  write (cv2.cvtColor_RGB2BGR annotated) ;;;
  n <- get_i ;;
  set_i (n + 1) ;;;
  if decide (frame_count > 0) then
    n <- get_i ;;
    q <- eval (Py.truediv n frame_count) ;;
    emit (progress_bar_progress (Py.min q 1)) ;;;
    emit (status_text_text ("Processed frame " +:+ pretty n +:+ "/"
                            +:+ pretty frame_count))
  else ret tt.

(** Lines 111-137: [while True: ret, frame = cap.read(); if not ret: break;
    ...].  The recursion is on the results the capture still has to give. *)
Fixpoint frame_loop (model : Detector) (frame_count width height : Z)
    (stream : list (option ndarray)) : M unit :=
  match stream with
  | [] => emit (cap_read None)
  | None :: _ => emit (cap_read None)
  | Some frame :: rest =>
      emit (cap_read (Some frame)) ;;;
      process_frame model frame_count width height frame ;;;
      frame_loop model frame_count width height rest
  end.

(** Lines 152-156: the text the tip is shown in. *)
Definition tip_block (tip : string) : string :=
  let nl := String (Ascii.ascii_of_nat 10) EmptyString in
  let dq := String (Ascii.ascii_of_nat 34) EmptyString in
  nl +:+ "    <div style=" +:+ dq
  +:+ "background-color:#F0F8FF; padding:15px; border-radius:10px; margin-top:20px;"
  +:+ dq +:+ ">" +:+ nl
  +:+ "        <b>💡 Coaching Tip Based On Your Video:</b> " +:+ tip +:+ nl
  +:+ "    </div>" +:+ nl +:+ "    ".

(** Lines 143-148. *)
Definition results_stage : M unit :=
  emit (st_subheader "📊 Results") ;;;
  c <- get_shot_counter ;;
  if Counter.truthy c then
    for_ (Counter.items c) (fun '(shot, count) =>
      emit (st_markdown ("- **" +:+ shot +:+ ":** " +:+ pretty count)))
  else emit (st_markdown "No shots detected. Try uploading a clearer video.").

(** Lines 161-169. *)
Definition download_stage (up : UploadedFile) : M unit :=
  let fs := disk_at_end env in
  if os_path_exists fs out_path then
    size <- call (os_path_getsize fs out_path) ;;
    if decide (size > 0) then
      emit (st_markdown "<br><br>") ;;;
      data <- call (read_file fs out_path) ;;
      emit (st_download_button "⬇️ Download Processed Video" data
              ("processed_" +:+ name up) "video/mp4")
    else ret tt
  else ret tt.

(** Lines 87-140: open the capture and the writer, run the loop, release. *)
Definition processing_stage (model : Detector) (up : UploadedFile) : M unit :=
  let cap := VideoCapture env (video_path up) in
  emit (VideoCapture_open (video_path up)) ;;;
  if negb (cv2.isOpened cap) then
    emit (st_error
            "❌ Could not open video. Please try a standard MP4 (H.264).") ;;;
    st_stop
  else
    emit (VideoWriter_open out_path "mp4v" (fps cap)
            (width cap, height cap)) ;;;
    set_shot_counter Counter.empty ;;;
    emit (st_subheader "⏳ Processing your video") ;;;
    emit (st_progress 0) ;;;
    emit st_empty ;;;
    set_i 0 ;;;
    frame_loop model (frame_count cap) (width cap) (height cap)
      (cv2.reads cap) ;;;
    emit cap_release ;;;
    emit writer_release.

(** Lines 44-169. *)
Definition script : M unit :=
  model <- load_stage ;;
  up <- upload_stage ;;
  emit (temp_in_write (video_path up) (content up)) ;;;
  processing_stage model up ;;;
  results_stage ;;;
  emit (st_tip (random_choice env feedback_tips)) ;;;
  download_stage up.

(** One run of the page. *)
Definition run : Res unit * World := script world0.

End Script.

(** ** What a log shows *)

(** The frames [cap.read()] returned, oldest first. *)
Definition frames_read (l : list Event) : list ndarray :=
  omap (fun e => match e with cap_read (Some f) => Some f | _ => None end) l.

(** The frames handed to [writer.write], oldest first. *)
Definition frames_written (l : list Event) : list ndarray :=
  omap (fun e => match e with writer_write f => Some f | _ => None end) l.

(** The reads and writes of frames in the order they happened. *)
Definition frame_io (l : list Event) : list (ndarray + ndarray) :=
  omap (fun e =>
          match e with
          | cap_read (Some f) => Some (inl f)
          | writer_write g => Some (inr g)
          | _ => None
          end) l.

(** The fractions shown on the progress bar, oldest first. *)
Definition progress_values (l : list Event) : list Q :=
  omap (fun e =>
          match e with
          | st_progress q | progress_bar_progress q => Some q
          | _ => None
          end) l.

(** The detections the tally loop has gone through: the boxes of every
    frame the detector returned results for. *)
Definition detections (model : Detector) (l : list Event) : list Box :=
  flat_map (fun e =>
              match e with
              | model_predict f =>
                  match model f with inr r => boxes r | inl _ => [] end
              | _ => []
              end) l.

Definition download_offered (l : list Event) : Prop :=
  exists label data file_name mime,
    In (st_download_button label data file_name mime) l.

Definition is_release (e : Event) : bool :=
  match e with cap_release | writer_release => true | _ => false end.

(** Events of the frame loop itself. *)
Definition is_frame_event (e : Event) : bool :=
  match e with
  | cap_read _ | model_predict _ | writer_write _
  | progress_bar_progress _ | status_text_text _ => true
  | _ => false
  end.

(** A detection counts when its class id is one of 0, 1, 2. *)
Definition in_scope (b : Box) : bool :=
  bool_decide (class_id b ∈ ({[ 0; 1; 2 ]} : gset Z)).

Definition add_log (w : World) (l : list Event) : World :=
  {| log := log w ++ l; shot_counter := shot_counter w; i := i w |}.

(** ** Notions used to state and prove the properties *)

Definition counts_nonneg (c : Counter.t) : Prop :=
  Forall (fun kv : string * Z => 0 <= kv.2) (Counter.items c).

Definition in_scope_count (bs : list Box) : Z :=
  Z.of_nat (length (filter (fun b => in_scope b = true) bs)).

(** What lines 135-137 report once [i] has become [n]. *)
Definition progress_events (frame_count n : Z) : list Event :=
  if decide (frame_count > 0) then
    [progress_bar_progress (Py.min (inject_Z n / inject_Z frame_count) 1);
     status_text_text ("Processed frame " +:+ pretty n +:+ "/"
                       +:+ pretty frame_count)]
  else [].

(** The four ways one pass through the loop body can go. *)
Inductive FrameStep (env : Env) (model : Detector) (fc W H : Z)
    (frame : ndarray) (w : World) : Res unit * World -> Prop :=
| step_predict_raises msg :
    model frame = inl msg ->
    FrameStep env model fc W H frame w
      (Raise (LibraryError msg), add_log w [model_predict frame])
| step_normalize_raises r e :
    model frame = inr r ->
    normalize env W H (plot r) frame = inl e ->
    FrameStep env model fc W H frame w
      (Raise e,
       {| log := log w ++ [model_predict frame];
          shot_counter := fold_left count_shot (boxes r) (shot_counter w);
          i := i w |})
| step_write_raises r a msg :
    model frame = inr r ->
    normalize env W H (plot r) frame = inr a ->
    write_raises env (cv2.cvtColor_RGB2BGR a) = Some msg ->
    FrameStep env model fc W H frame w
      (Raise (LibraryError msg),
       {| log := log w ++ [model_predict frame];
          shot_counter := fold_left count_shot (boxes r) (shot_counter w);
          i := i w |})
| step_written r a :
    model frame = inr r ->
    normalize env W H (plot r) frame = inr a ->
    write_raises env (cv2.cvtColor_RGB2BGR a) = None ->
    FrameStep env model fc W H frame w
      (Val tt,
       {| log := log w ++ [model_predict frame;
                           writer_write (cv2.cvtColor_RGB2BGR a)]
                 ++ progress_events fc (i w + 1);
          shot_counter := fold_left count_shot (boxes r) (shot_counter w);
          i := i w + 1 |}).

(** The runs of the loop, as a relation between the reads still to come, the
    state before and the outcome. *)
Inductive LoopRun (env : Env) (model : Detector) (fc W H : Z)
  : list (option ndarray) -> World -> Res unit * World -> Prop :=
| loop_end_of_stream w :
    LoopRun env model fc W H [] w (Val tt, add_log w [cap_read None])
| loop_read_failed rest w :
    LoopRun env model fc W H (None :: rest) w
      (Val tt, add_log w [cap_read None])
| loop_aborted frame rest w e w' :
    FrameStep env model fc W H frame (add_log w [cap_read (Some frame)])
      (Raise e, w') ->
    LoopRun env model fc W H (Some frame :: rest) w (Raise e, w')
| loop_next frame rest w w' out :
    FrameStep env model fc W H frame (add_log w [cap_read (Some frame)])
      (Val tt, w') ->
    LoopRun env model fc W H rest w' out ->
    LoopRun env model fc W H (Some frame :: rest) w out.

(** What lines 143-148 show for a tally. *)
Definition results_events (c : Counter.t) : list Event :=
  st_subheader "📊 Results" ::
  (if Counter.truthy c then
     map (fun kv : string * Z =>
            st_markdown ("- **" +:+ kv.1 +:+ ":** " +:+ pretty kv.2))
       (Counter.items c)
   else [st_markdown "No shots detected. Try uploading a clearer video."]).

(** What lines 161-169 show for the files on disk. *)
Definition download_events (env : Env) (up : UploadedFile) : list Event :=
  match disk_at_end env !! out_path env with
  | Some data =>
      if decide (Z.of_nat (length data) > 0) then
        [st_markdown "<br><br>";
         st_download_button "⬇️ Download Processed Video" data
           ("processed_" +:+ name up) "video/mp4"]
      else []
  | None => []
  end.

(** The events before the first [cap.read()]. *)
Definition prelude (env : Env) (up : UploadedFile) : list Event :=
  let cap := VideoCapture env (video_path env up) in
  [load_model MODEL_PATH;
   temp_in_write (video_path env up) (content up);
   VideoCapture_open (video_path env up);
   VideoWriter_open (out_path env) "mp4v" (fps cap) (width cap, height cap);
   st_subheader "⏳ Processing your video";
   st_progress 0;
   st_empty].

Definition loop_start (env : Env) (up : UploadedFile) : World :=
  {| log := prelude env up; shot_counter := Counter.empty; i := 0 |}.

(** The events after the loop. *)
Definition epilogue (env : Env) (up : UploadedFile) (c : Counter.t)
  : list Event :=
  [cap_release; writer_release] ++ results_events c
  ++ [st_tip (random_choice env feedback_tips)] ++ download_events env up.

(** The five ways a run of the page can go. *)
Inductive RunShape (env : Env) : Res unit * World -> Prop :=
| run_load_failed e :
    YOLO env MODEL_PATH = inl e ->
    RunShape env
      (Stop,
       {| log := [load_model MODEL_PATH;
                  st_error ("❌ Failed to load model at '" +:+ MODEL_PATH
                            +:+ "': " +:+ e)];
          shot_counter := Counter.empty; i := 0 |})
| run_no_upload model :
    YOLO env MODEL_PATH = inr model ->
    uploaded_file env = None ->
    RunShape env
      (Stop,
       {| log := [load_model MODEL_PATH;
                  st_info "Please upload a video to begin."];
          shot_counter := Counter.empty; i := 0 |})
| run_unreadable model up :
    YOLO env MODEL_PATH = inr model ->
    uploaded_file env = Some up ->
    cv2.isOpened (VideoCapture env (video_path env up)) = false ->
    RunShape env
      (Stop,
       {| log := [load_model MODEL_PATH;
                  temp_in_write (video_path env up) (content up);
                  VideoCapture_open (video_path env up);
                  st_error
                    "❌ Could not open video. Please try a standard MP4 (H.264)."];
          shot_counter := Counter.empty; i := 0 |})
| run_aborted model up e w :
    YOLO env MODEL_PATH = inr model ->
    uploaded_file env = Some up ->
    let cap := VideoCapture env (video_path env up) in
    cv2.isOpened cap = true ->
    LoopRun env model (frame_count cap) (width cap) (height cap)
      (cv2.reads cap) (loop_start env up) (Raise e, w) ->
    RunShape env (Raise e, w)
| run_finished model up w :
    YOLO env MODEL_PATH = inr model ->
    uploaded_file env = Some up ->
    let cap := VideoCapture env (video_path env up) in
    cv2.isOpened cap = true ->
    LoopRun env model (frame_count cap) (width cap) (height cap)
      (cv2.reads cap) (loop_start env up) (Val tt, w) ->
    RunShape env (Val tt, add_log w (epilogue env up (shot_counter w))).

(** Events of the stages after the loop. *)
Definition is_epilogue_event (e : Event) : bool :=
  match e with
  | cap_release | writer_release | st_subheader _ | st_markdown _
  | st_tip _ | st_download_button _ _ _ _ => true
  | _ => false
  end.

(** ** Sample environments *)

Module Examples.

(** A 2 x 2 image. *)
Definition img (d : Dtype) (v : Q) : ndarray :=
  {| dtype := d;
     px := [[(v, 0, 1)%Q; (v, v, v)]; [(0, 0, 0)%Q; (1, 1, 1)%Q]] |}.

Definition three_boxes : list Box :=
  [ {| cls0 := 0 |}; {| cls0 := 7 |}; {| cls0 := 1 |} ].

(** A detector that draws a floating-point overlay. *)
Definition float_model : Detector :=
  fun _ => inr {| boxes := three_boxes; plot := Some (img float32 (3 # 4)) |}.

(** A detector whose [plot()] gives [None]. *)
Definition none_model : Detector :=
  fun _ => inr {| boxes := three_boxes; plot := None |}.

(** A detector that raises on every frame. *)
Definition raising_model : Detector := fun _ => inl "inference failed".

Definition capture (opened : bool) (count rate : Q)
    (rs : list (option ndarray)) : cv2.VideoCapture :=
  {| cv2.isOpened := opened;
     cv2.get := fun p =>
       match p with
       | cv2.CAP_PROP_FRAME_COUNT => count
       | cv2.CAP_PROP_FPS => rate
       | _ => 2%Q
       end;
     cv2.reads := rs |}.

(** Arithmetic without rounding error. *)
Definition exact_arith : FloatArith :=
  {| round_to := fun _ x => x;
     round_to_mono := fun _ x y H => H;
     round_to_exact := fun _ k _ => Qeq_refl (inject_Z k) |}.

(** Arithmetic that rounds every product to the nearest whole number: coarser
    than any dtype of [numpy], but it shows a product rounded upwards. *)
Definition whole_arith : FloatArith.
Proof.
  refine {| round_to := fun _ x => inject_Z (Qfloor (x + (1 # 2))) |}.
  - intros _ x y H. rewrite <- Zle_Qle. apply Qfloor_resp_le. lra.
  - intros _ k _.
    assert (E : Qfloor (inject_Z k + (1 # 2)) = k); [|now rewrite E].
    pose proof (Qfloor_le (inject_Z k + (1 # 2))) as H1.
    pose proof (Qlt_floor (inject_Z k + (1 # 2))) as H2.
    assert (H3 : (inject_Z (Qfloor (inject_Z k + (1 # 2))) < inject_Z (k + 1))%Q)
      by (rewrite inject_Z_plus; change (inject_Z 1) with 1%Q; lra).
    assert (H4 : (inject_Z (k - 1)
                  < inject_Z (Qfloor (inject_Z k + (1 # 2))))%Q).
    { rewrite inject_Z_plus in H2. change (inject_Z 1) with 1%Q in H2.
      unfold Z.sub. rewrite inject_Z_plus.
      change (inject_Z (- (1))) with (- (1))%Q. lra. }
    rewrite <- Zlt_Qlt in H3, H4. lia.
Defined.

Definition make_env (yolo : string + Detector) (cap : cv2.VideoCapture)
    (disk : gmap string (list Byte.byte)) : Env :=
  {| YOLO := fun _ => yolo;
     uploaded_file := Some {| name := "rally.mp4"; content := [] |};
     splitext_ext := fun _ => ".mp4";
     NamedTemporaryFile := fun suffix => "/tmp/upload" +:+ suffix;
     gettempdir := "/tmp";
     os_path_join := fun a b => a +:+ "/" +:+ b;
     uuid4_hex := "00";
     VideoCapture := fun _ => cap;
     resize := fun a _ => inr a;
     write_raises := fun _ => None;
     random_choice := fun l => hd "" l;
     disk_at_end := disk;
     float_arith := exact_arith |}.

Definition out_file : gmap string (list Byte.byte) :=
  {[ "/tmp/processed_00.mp4" := [Byte.x00; Byte.x01] ]}.

(** Two frames, then a failed read; the capture reports 3 frames and no
    frame rate. *)
Definition two_frames : cv2.VideoCapture :=
  capture true 3 0
    [Some (img uint8 10); Some (img uint8 20); None; Some (img uint8 30)].

(** One frame; the capture reports a frame count of 0. *)
Definition no_count : cv2.VideoCapture :=
  capture true 0 30 [Some (img uint8 10)].

(** Two frames, of which the capture reports only one. *)
Definition undercount : cv2.VideoCapture :=
  capture true 1 30 [Some (img uint8 10); Some (img uint8 20)].

Definition env_undercount : Env :=
  make_env (inr float_model) undercount out_file.

Definition env_ok : Env := make_env (inr float_model) two_frames out_file.
Definition env_none_plot : Env := make_env (inr none_model) two_frames out_file.
Definition env_raises : Env := make_env (inr raising_model) two_frames out_file.
Definition env_no_count : Env := make_env (inr float_model) no_count out_file.
Definition env_no_model : Env :=
  make_env (inl "No such file or directory") two_frames out_file.
Definition env_unreadable : Env :=
  make_env (inr float_model) (capture false 0 0 []) ∅.
Definition env_empty_output : Env :=
  make_env (inr float_model) two_frames {[ "/tmp/processed_00.mp4" := [] ]}.

(** A stand-in for [cv2.resize]: nearest-neighbour sampling; an empty
    target size raises, as in OpenCV. *)
Definition nearest_resize (a : ndarray) (size : Z * Z) : string + ndarray :=
  let '(w, h) := size in
  if decide (0 < w /\ 0 < h) then
    let rows := length (px a) in
    let cols := length (hd [] (px a)) in
    inr {| dtype := dtype a;
           px := map (fun r =>
                        map (fun c =>
                               nth (c * cols / Z.to_nat w)
                                 (nth (r * rows / Z.to_nat h) (px a) [])
                                 (0, 0, 0)%Q)
                          (seq 0 (Z.to_nat w)))
                   (seq 0 (Z.to_nat h)) |}
  else inl "dsize is empty".

(** Two 2 x 2 frames from a capture that reports 3 x 1. *)
Definition wide_capture : cv2.VideoCapture :=
  {| cv2.isOpened := true;
     cv2.get := fun p =>
       match p with
       | cv2.CAP_PROP_FRAME_COUNT => 2%Q
       | cv2.CAP_PROP_FRAME_WIDTH => 3%Q
       | cv2.CAP_PROP_FRAME_HEIGHT => 1%Q
       | cv2.CAP_PROP_FPS => 30%Q
       end;
     cv2.reads := [Some (img uint8 10); Some (img uint8 20)] |}.

Definition env_resizing : Env :=
  {| YOLO := fun _ => inr float_model;
     uploaded_file := Some {| name := "rally.mp4"; content := [] |};
     splitext_ext := fun _ => ".mp4";
     NamedTemporaryFile := fun suffix => "/tmp/upload" +:+ suffix;
     gettempdir := "/tmp";
     os_path_join := fun a b => a +:+ "/" +:+ b;
     uuid4_hex := "00";
     VideoCapture := fun _ => wide_capture;
     resize := nearest_resize;
     write_raises := fun _ => None;
     random_choice := fun l => hd "" l;
     disk_at_end := out_file;
     float_arith := exact_arith |}.

(** No file has been uploaded. *)
Definition env_no_upload : Env :=
  {| YOLO := fun _ => inr float_model;
     uploaded_file := None;
     splitext_ext := fun _ => ".mp4";
     NamedTemporaryFile := fun suffix => "/tmp/upload" +:+ suffix;
     gettempdir := "/tmp";
     os_path_join := fun a b => a +:+ "/" +:+ b;
     uuid4_hex := "00";
     VideoCapture := fun _ => two_frames;
     resize := fun a _ => inr a;
     write_raises := fun _ => None;
     random_choice := fun l => hd "" l;
     disk_at_end := out_file;
     float_arith := exact_arith |}.

End Examples.

(** ** Notions used to state and prove the properties, continued *)

(** Whether the run gets as far as opening the writer. *)
Definition started (env : Env) : Prop :=
  exists model up,
    YOLO env MODEL_PATH = inr model
    /\ uploaded_file env = Some up
    /\ cv2.isOpened (VideoCapture env (video_path env up)) = true.

Definition output_nonempty (env : Env) : Prop :=
  exists data,
    disk_at_end env !! out_path env = Some data /\ (0 < length data)%nat.

Definition tally_ok (model : Detector) (w : World) : Prop :=
  counts_nonneg (shot_counter w)
  /\ Counter.total (shot_counter w)
     = in_scope_count (detections model (log w)).

(** The frames a capture gives before its first failed read. *)
Fixpoint read_prefix (stream : list (option ndarray)) : list ndarray :=
  match stream with
  | Some f :: rest => f :: read_prefix rest
  | _ => []
  end.

(** [out] is what the loop body writes for [frame]: the detector's drawing
    of it (or the frame itself), normalized, with red and blue swapped. *)
Definition written_for (env : Env) (model : Detector) (W H : Z)
    (frame out : ndarray) : Prop :=
  exists r a,
    model frame = inr r
    /\ normalize env W H (plot r) frame = inr a
    /\ out = cv2.cvtColor_RGB2BGR a.

(** Read one, write one, read the next, ... *)
Definition interleave (pairs : list (ndarray * ndarray))
  : list (ndarray + ndarray) :=
  flat_map (fun p => [inl p.1; inr p.2]) pairs.

Definition pipeline_started (l : list Event) : Prop :=
  exists p c f s, In (VideoWriter_open p c f s) l.

Definition releases_both (l : list Event) : Prop :=
  In cap_release l /\ In writer_release l.

(** What the page shows of the results: the results heading, the result
    lines and other markdown, the tip, the download button. *)
Definition is_result_event (e : Event) : bool :=
  match e with
  | st_subheader m => bool_decide (m = "📊 Results")
  | st_markdown _ | st_tip _ | st_download_button _ _ _ _ => true
  | _ => false
  end.

Definition is_progress_report (e : Event) : bool :=
  match e with
  | progress_bar_progress _ | status_text_text _ => true
  | _ => false
  end.

(** Everything shown so far is in order and at most the fraction for the
    current [i]. *)
Definition progress_ok (fc : Z) (w : World) : Prop :=
  StronglySorted Qle (progress_values (log w))
  /\ Forall (fun q => q <= Py.min (inject_Z (i w) / inject_Z fc) 1)%Q
       (progress_values (log w)).

Definition progress_summary (fc : Z) (l : list Event) : Prop :=
  StronglySorted Qle (progress_values l)
  /\ Forall (fun q => q <= 1)%Q (progress_values l)
  /\ (fc <= 0 ->
      Forall (fun e => is_progress_report e = false) l
      /\ Forall (fun q => q = 0%Q) (progress_values l)).

(** [out] is [v] clipped to [0, 1] and scaled to an 8-bit value: a whole
    number from 0 to 255, which is 0 for [v <= 0], 255 for [1 <= v], and in
    between less than one away from 255 times [v] (the product is rounded
    before its integer part is taken, so it need not be the integer part of
    the exact product). *)
Definition clipped_scaled_8bit (v out : Q) : Prop :=
  exists k : Z,
    out = inject_Z k
    /\ 0 <= k <= 255
    /\ ((v <= 0)%Q -> k = 0)
    /\ ((1 <= v)%Q -> k = 255)
    /\ ((0 <= v)%Q -> (v <= 1)%Q ->
        (255 * v - 1 < inject_Z k)%Q /\ (inject_Z k < 255 * v + 1)%Q).



(** ** Further notions: what else a log shows *)

(** The frames handed to [model.predict], oldest first. *)
Definition frames_predicted (l : list Event) : list ndarray :=
  omap (fun e => match e with model_predict f => Some f | _ => None end) l.

(** The texts put into the status placeholder, oldest first. *)
Definition status_texts (l : list Event) : list string :=
  omap (fun e => match e with status_text_text m => Some m | _ => None end) l.



(** The texts passed to [st.markdown] from the model loading on, oldest
    first; the tip is passed inside its block. *)
Definition markdowns (l : list Event) : list string :=
  omap (fun e =>
          match e with
          | st_markdown m => Some m
          | st_tip t => Some (tip_block t)
          | _ => None
          end) l.

(** The coaching tips shown, oldest first. *)
Definition tips (l : list Event) : list string :=
  omap (fun e => match e with st_tip t => Some t | _ => None end) l.

(** The line of the results list for one entry of the tally (line 146). *)
Definition result_line (kv : string * Z) : string :=
  "- **" +:+ kv.1 +:+ ":** " +:+ pretty kv.2.

(** The text of the status placeholder after frame [k] of [fc] (line 137). *)
Definition status_line (fc k : Z) : string :=
  "Processed frame " +:+ pretty k +:+ "/" +:+ pretty fc.

(** The number of detections with class id [k]. *)
Definition count_class (k : Z) (bs : list Box) : Z :=
  Z.of_nat (length (filter (fun b => class_id b = k) bs)).

(** The label a detection is counted under, if any. *)
Definition label_of (b : Box) : option string := class_map !! class_id b.

(** The labels of [ls] in the order of their first occurrence, leaving out
    those already in [seen]. *)
Fixpoint first_seen (seen ls : list string) : list string :=
  match ls with
  | [] => []
  | l :: rest =>
      if decide (l ∈ seen) then first_seen seen rest
      else l :: first_seen (seen ++ [l]) rest
  end.

(** The events of one pass of the loop that writes [out] for [frame] and
    leaves [i] at [n]. *)
Definition pass_events (fc n : Z) (frame out : ndarray) : list Event :=
  [cap_read (Some frame); model_predict frame; writer_write out]
  ++ progress_events fc n.

(** The events of successive passes, starting with [i] at [n]. *)
Fixpoint passes_events (fc n : Z) (pairs : list (ndarray * ndarray))
  : list Event :=
  match pairs with
  | [] => []
  | p :: ps => pass_events fc (n + 1) p.1 p.2 ++ passes_events fc (n + 1) ps
  end.

(** How the log of the loop ends: on the read that gave no frame, or on the
    call of the detector for the frame whose pass raised. *)
Definition loop_tail (res : Res unit) (t : list Event) : Prop :=
  match res with
  | Val _ => t = [cap_read None]
  | Stop => False
  | Raise _ => exists f, t = [cap_read (Some f); model_predict f]
  end.

(** The keys of the tally are distinct, each is one of the three labels, and
    each count is at least 1. *)
Definition tally_wf (c : Counter.t) : Prop :=
  NoDup (map fst c)
  /\ Forall (fun kv : string * Z =>
               In kv.1 ["Forehand"; "Backhand"; "Serve"] /\ 1 <= kv.2) c.

(** Every channel value is a whole number. *)
Definition integer_valued (a : ndarray) : Prop :=
  Forall (Forall (fun p : Pixel =>
                    (exists z, p.1.1 = inject_Z z)
                    /\ (exists z, p.1.2 = inject_Z z)
                    /\ (exists z, p.2 = inject_Z z))) (px a).

(** Every channel value is 0 or 255. *)
Definition black_or_white (a : ndarray) : Prop :=
  Forall (Forall (fun p : Pixel =>
                    (p.1.1 = 0%Q \/ p.1.1 = 255%Q)
                    /\ (p.1.2 = 0%Q \/ p.1.2 = 255%Q)
                    /\ (p.2 = 0%Q \/ p.2 = 255%Q))) (px a).

(** What the script relies on [cv2.resize] for: an image of the size asked
    for, of the same dtype. *)
Definition resize_contract (env : Env) : Prop :=
  forall a w h b,
    resize env a (w, h) = inr b ->
    shape1 b = w /\ shape0 b = h /\ dtype b = dtype a.

(** What the script relies on [random.choice] for. *)
Definition choice_contract (env : Env) : Prop :=
  forall l : list string, l <> [] -> In (random_choice env l) l.

(** ** Arithmetic of the Python operators *)

Lemma Py_int_inject_Z (k : Z) : Py.int (inject_Z k) = k.
Proof. unfold Py.int; simpl. apply Z.quot_1_r. Qed.

Lemma Py_int_Qeq_inject_Z (x : Q) (k : Z) : x == inject_Z k -> Py.int x = k.
Proof.
  unfold Py.int, Qeq; simpl. intros H.
  rewrite Z.mul_1_r in H. rewrite H.
  apply Z.quot_mul. discriminate.
Qed.

Lemma Py_int_or_0 (x : Q) : Py.int (Py.or_ x 0) = Py.int x.
Proof.
  unfold Py.or_. destruct (Qeq_bool x 0) eqn:E; [|reflexivity].
  apply Qeq_bool_eq in E. symmetry.
  now apply (Py_int_Qeq_inject_Z x 0).
Qed.

Lemma Py_int_nonneg (x : Q) :
  (0 <= x)%Q -> Py.int x = Qfloor x.
Proof.
  unfold Py.int, Qfloor, Qle. destruct x as [n d]; simpl.
  intros H. rewrite Z.mul_1_r in H.
  apply Z.quot_div_nonneg; lia.
Qed.

Lemma Py_min_le_l (a b : Q) : (Py.min a b <= a)%Q.
Proof.
  unfold Py.min. destruct (Qle_bool a b) eqn:E.
  - apply Qle_refl.
  - destruct (Qlt_le_dec b a) as [H|H].
    + now apply Qlt_le_weak.
    + apply Qle_bool_iff in H. congruence.
Qed.

Lemma Py_min_le_r (a b : Q) : (Py.min a b <= b)%Q.
Proof.
  unfold Py.min. destruct (Qle_bool a b) eqn:E.
  - now apply Qle_bool_iff.
  - apply Qle_refl.
Qed.

Lemma Py_min_mono (a a' b : Q) : (a <= a')%Q -> (Py.min a b <= Py.min a' b)%Q.
Proof.
  intros H. unfold Py.min at 2. destruct (Qle_bool a' b) eqn:E.
  - eapply Qle_trans; [apply Py_min_le_l | exact H].
  - apply Py_min_le_r.
Qed.

Lemma truediv_mono (n m d : Z) :
  0 < d -> n <= m -> (inject_Z n / inject_Z d <= inject_Z m / inject_Z d)%Q.
Proof.
  intros Hd Hnm. unfold Qdiv.
  apply Qmult_le_compat_r.
  - now rewrite <- Zle_Qle.
  - apply Qinv_le_0_compat. rewrite <- (Zle_Qle 0). lia.
Qed.

(** ** The counter *)

Lemma Counter_total_set (c : Counter.t) (k : string) (v : Z) :
  Counter.total (Counter.set c k v) = Counter.total c - Counter.get c k + v.
Proof.
  unfold Counter.total.
  induction c as [|[k' v'] rest IH]; simpl.
  - lia.
  - destruct (decide (k = k')); simpl; [lia|].
    rewrite IH. lia.
Qed.

Lemma Counter_total_incr (c : Counter.t) (k : string) :
  Counter.total (Counter.incr c k) = Counter.total c + 1.
Proof. unfold Counter.incr. rewrite Counter_total_set. lia. Qed.

Lemma Counter_get_nonneg (c : Counter.t) (k : string) :
  counts_nonneg c -> 0 <= Counter.get c k.
Proof.
  unfold counts_nonneg, Counter.items.
  induction 1 as [|[k' v'] rest Hv _ IH]; simpl; [lia|].
  destruct (decide (k = k')); [exact Hv | exact IH].
Qed.

Lemma Counter_set_nonneg (c : Counter.t) (k : string) (v : Z) :
  counts_nonneg c -> 0 <= v -> counts_nonneg (Counter.set c k v).
Proof.
  unfold counts_nonneg, Counter.items. intros Hc Hv.
  induction Hc as [|[k' v'] rest Hv' Hrest IH]; simpl.
  - repeat constructor. exact Hv.
  - destruct (decide (k = k')); constructor; auto.
Qed.

Lemma Counter_incr_nonneg (c : Counter.t) (k : string) :
  counts_nonneg c -> counts_nonneg (Counter.incr c k).
Proof.
  intros Hc. apply Counter_set_nonneg; [exact Hc|].
  pose proof (Counter_get_nonneg c k Hc). lia.
Qed.

Lemma class_map_in_scope (b : Box) :
  in_scope b = true -> exists label, class_map !! class_id b = Some label.
Proof.
  unfold in_scope. intros H. apply bool_decide_eq_true in H.
  unfold class_map.
  rewrite !elem_of_union, !elem_of_singleton in H.
  destruct H as [[-> | ->] | ->]; eexists; reflexivity.
Qed.

Lemma class_map_out_of_scope (b : Box) :
  in_scope b = false -> class_map !! class_id b = None.
Proof.
  unfold in_scope. intros H. apply bool_decide_eq_false in H.
  unfold class_map.
  rewrite !elem_of_union, !elem_of_singleton in H.
  rewrite !lookup_insert_ne by (intros E; apply H; rewrite <- E; tauto).
  apply lookup_singleton_ne. intros E; apply H; rewrite <- E; tauto.
Qed.

Lemma count_shot_total (c : Counter.t) (b : Box) :
  Counter.total (count_shot c b)
  = Counter.total c + (if in_scope b then 1 else 0).
Proof.
  unfold count_shot. destruct (in_scope b) eqn:E.
  - destruct (class_map_in_scope b E) as [label ->].
    apply Counter_total_incr.
  - rewrite (class_map_out_of_scope b E). lia.
Qed.

Lemma count_shot_nonneg (c : Counter.t) (b : Box) :
  counts_nonneg c -> counts_nonneg (count_shot c b).
Proof.
  intros Hc. unfold count_shot.
  destruct (class_map !! class_id b); [|exact Hc].
  now apply Counter_incr_nonneg.
Qed.

Lemma in_scope_count_app (bs bs' : list Box) :
  in_scope_count (bs ++ bs') = in_scope_count bs + in_scope_count bs'.
Proof.
  unfold in_scope_count. rewrite filter_app, length_app. lia.
Qed.

Lemma count_shots_total (bs : list Box) (c : Counter.t) :
  Counter.total (fold_left count_shot bs c)
  = Counter.total c + in_scope_count bs.
Proof.
  revert c. induction bs as [|b bs IH]; intros c; simpl.
  - unfold in_scope_count; simpl. lia.
  - rewrite IH, count_shot_total.
    change (b :: bs) with ([b] ++ bs). rewrite in_scope_count_app.
    unfold in_scope_count at 2. simpl.
    rewrite filter_cons, filter_nil.
    destruct (decide (in_scope b = true)) as [->|Hn]; simpl; [lia|].
    destruct (in_scope b); [congruence|simpl; lia].
Qed.

Lemma count_shots_nonneg (bs : list Box) (c : Counter.t) :
  counts_nonneg c -> counts_nonneg (fold_left count_shot bs c).
Proof.
  revert c. induction bs as [|b bs IH]; intros c Hc; simpl; [exact Hc|].
  apply IH. now apply count_shot_nonneg.
Qed.

(** ** Running the stages *)

Lemma count_shots_run (bs : list Box) (w : World) :
  count_shots bs w
  = (Val tt, {| log := log w;
                shot_counter := fold_left count_shot bs (shot_counter w);
                i := i w |}).
Proof.
  revert w. induction bs as [|b bs IH]; intros [l c n]; simpl.
  - reflexivity.
  - unfold count_shots in *. simpl. unfold bind at 1. simpl.
    now rewrite IH.
Qed.

Lemma process_frame_step (env : Env) (model : Detector) (fc W H : Z)
    (frame : ndarray) (w : World) :
  FrameStep env model fc W H frame w (process_frame env model fc W H frame w).
Proof.
  destruct w as [l c n].
  set (w := {| log := l; shot_counter := c; i := n |}).
  unfold process_frame, bind at 1. simpl.
  unfold bind at 1. destruct (model frame) as [msg|r] eqn:Em; simpl.
  { exact (step_predict_raises env model fc W H frame w msg Em). }
  unfold bind at 1. rewrite count_shots_run. simpl.
  unfold bind at 1.
  destruct (normalize env W H (plot r) frame) as [e|a] eqn:En; simpl.
  { exact (step_normalize_raises env model fc W H frame w r e Em En). }
  unfold bind at 1, write.
  destruct (write_raises env (cv2.cvtColor_RGB2BGR a)) as [msg|] eqn:Ew; simpl.
  { exact (step_write_raises env model fc W H frame w r a msg Em En Ew). }
  unfold bind at 1. simpl. unfold bind at 1. simpl.
  pose proof (step_written env model fc W H frame w r a Em En Ew) as S.
  unfold progress_events in S. simpl in S.
  destruct (decide (fc > 0)) as [Hfc|Hfc]; simpl.
  - unfold bind at 1. simpl. unfold bind at 1, Py.truediv.
    destruct (decide (fc = 0)) as [E0|E0]; [lia|]. simpl.
    unfold bind at 1. simpl. unfold emit at 1. simpl.
    rewrite <- !app_assoc. simpl. exact S.
  - unfold ret. rewrite <- !app_assoc. exact S.
Qed.

Lemma frame_loop_run (env : Env) (model : Detector) (fc W H : Z)
    (stream : list (option ndarray)) (w : World) :
  LoopRun env model fc W H stream w (frame_loop env model fc W H stream w).
Proof.
  revert w. induction stream as [|[frame|] rest IH]; intros w; simpl.
  - apply loop_end_of_stream.
  - unfold bind at 1. simpl. fold (add_log w [cap_read (Some frame)]).
    unfold bind at 1.
    pose proof (process_frame_step env model fc W H frame
                  (add_log w [cap_read (Some frame)])) as S.
    destruct (process_frame env model fc W H frame
                (add_log w [cap_read (Some frame)])) as [[[]| |e] w'].
    + eapply loop_next; [exact S | apply IH].
    + inversion S.
    + now apply loop_aborted.
  - apply loop_read_failed.
Qed.

Lemma LoopRun_not_stop env model fc W H stream w w' :
  ~ LoopRun env model fc W H stream w (Stop, w').
Proof.
  intros L. remember (Stop, w') as out eqn:E.
  induction L; try discriminate; auto.
Qed.

Lemma for_emit_run {A} (f : A -> Event) (xs : list A) (w : World) :
  for_ xs (fun x => emit (f x)) w = (Val tt, add_log w (map f xs)).
Proof.
  revert w. induction xs as [|x xs IH]; intros [l c n]; simpl.
  - unfold ret, add_log; simpl. now rewrite app_nil_r.
  - unfold bind at 1. simpl. rewrite IH. unfold add_log; simpl.
    now rewrite <- app_assoc.
Qed.

Lemma for_ext {A} (body body' : A -> M unit) (xs : list A) (w : World) :
  (forall x w', body x w' = body' x w') -> for_ xs body w = for_ xs body' w.
Proof.
  intros E. revert w. induction xs as [|x xs IH]; intros w; simpl.
  - reflexivity.
  - unfold bind. rewrite E. destruct (body' x w) as [[[]| |e] w']; auto.
Qed.

Lemma results_stage_run (w : World) :
  results_stage w = (Val tt, add_log w (results_events (shot_counter w))).
Proof.
  destruct w as [l c n]. unfold results_stage, results_events.
  unfold bind at 1. simpl. unfold bind at 1. simpl.
  destruct (Counter.truthy c).
  - rewrite (for_ext _
               (fun kv : string * Z =>
                  emit (st_markdown ("- **" +:+ kv.1 +:+ ":** "
                                     +:+ pretty kv.2))))
      by (intros [shot count] w'; reflexivity).
    rewrite (for_emit_run
               (fun kv : string * Z =>
                  st_markdown ("- **" +:+ kv.1 +:+ ":** " +:+ pretty kv.2))).
    unfold add_log; simpl. now rewrite <- app_assoc.
  - unfold emit, add_log; simpl. now rewrite <- app_assoc.
Qed.

Lemma download_stage_run (env : Env) (up : UploadedFile) (w : World) :
  download_stage env up w = (Val tt, add_log w (download_events env up)).
Proof.
  destruct w as [l c n].
  unfold download_stage, download_events, os_path_exists, os_path_getsize,
    read_file.
  destruct (disk_at_end env !! out_path env) as [data|] eqn:E.
  - rewrite bool_decide_eq_true_2 by eauto.
    unfold bind at 1. simpl.
    destruct (decide (Z.of_nat (length data) > 0)).
    + unfold bind at 1. simpl. unfold bind at 1. simpl.
      unfold emit, add_log. simpl. now rewrite <- app_assoc.
    + unfold ret, add_log. simpl. now rewrite app_nil_r.
  - rewrite bool_decide_eq_false_2 by (intros [x Hx]; discriminate).
    unfold ret, add_log. simpl. now rewrite app_nil_r.
Qed.

Lemma run_shape (env : Env) : RunShape env (run env).
Proof.
  cbv beta iota zeta delta
    [run script load_stage upload_stage processing_stage bind emit ret
     st_stop set_i set_shot_counter world0 negb].
  destruct (YOLO env MODEL_PATH) as [e|model] eqn:Ey.
  { now apply run_load_failed. }
  destruct (uploaded_file env) as [up|] eqn:Eu.
  2:{ now apply (run_no_upload env model). }
  destruct (cv2.isOpened (VideoCapture env (video_path env up))) eqn:Eo.
  2:{ now apply (run_unreadable env model up). }
  simpl.
  match goal with
  | |- context [frame_loop ?e ?m ?fc ?W ?H ?s ?w] =>
      change w with (loop_start env up);
      pose proof (frame_loop_run e m fc W H s (loop_start env up)) as L;
      destruct (frame_loop e m fc W H s (loop_start env up))
        as [[[]| |ex] w'] eqn:El
  end.
  - rewrite results_stage_run. cbv beta iota.
    rewrite download_stage_run.
    pose proof (run_finished env model up w' Ey Eu Eo L) as R.
    unfold epilogue, add_log in *. simpl in *.
    rewrite <- !app_assoc. simpl. exact R.
  - now apply LoopRun_not_stop in L.
  - now apply (run_aborted env model up ex w').
Qed.

(** ** What the loop adds to the log *)

Lemma progress_events_frame (fc n : Z) :
  Forall (fun e => is_frame_event e = true) (progress_events fc n).
Proof.
  unfold progress_events. destruct (decide (fc > 0)); repeat constructor.
Qed.

Lemma normalize_raises_library (env : Env) (W H : Z)
    (annotated : option ndarray) (frame : ndarray) (e : Exn) :
  normalize env W H annotated frame = inl e -> exists msg, e = LibraryError msg.
Proof.
  unfold normalize. intros E.
  destruct annotated as [a|];
    match type of E with
    | context [decide (?x <> ?y)] => destruct (decide (x <> y)); try discriminate
    end;
    match type of E with
    | context [resize ?e ?a ?s] => destruct (resize e a s) as [msg|]
    end; inversion E; eauto.
Qed.

Lemma FrameStep_raises_library env model fc W H frame w e w' :
  FrameStep env model fc W H frame w (Raise e, w') ->
  exists msg, e = LibraryError msg.
Proof.
  inversion 1; subst; eauto using normalize_raises_library.
Qed.

Lemma FrameStep_log env model fc W H frame w out :
  FrameStep env model fc W H frame w out ->
  exists l, log out.2 = log w ++ l
            /\ Forall (fun e => is_frame_event e = true) l.
Proof.
  destruct 1; simpl; eexists; split; try reflexivity;
    repeat constructor; apply progress_events_frame.
Qed.

Lemma LoopRun_raises_library env model fc W H stream w e w' :
  LoopRun env model fc W H stream w (Raise e, w') ->
  exists msg, e = LibraryError msg.
Proof.
  intros L. remember (Raise e, w') as out eqn:E. revert e w' E.
  induction L; intros e0 w0 E; try discriminate.
  - inversion E; subst. eauto using FrameStep_raises_library.
  - eauto.
Qed.

Lemma LoopRun_log env model fc W H stream w out :
  LoopRun env model fc W H stream w out ->
  exists l, log out.2 = log w ++ l
            /\ Forall (fun e => is_frame_event e = true) l.
Proof.
  induction 1 as [w|rest w|frame rest w e w' S|frame rest w w' out S L IH];
    simpl.
  - exists [cap_read None]. split; [reflexivity|repeat constructor].
  - exists [cap_read None]. split; [reflexivity|repeat constructor].
  - apply FrameStep_log in S as (l & E & F). simpl in *.
    exists (cap_read (Some frame) :: l). split.
    + now rewrite E, <- app_assoc.
    + now constructor.
  - apply FrameStep_log in S as (l & E & F). destruct IH as (l' & E' & F').
    simpl in *. exists (cap_read (Some frame) :: l ++ l'). split.
    + now rewrite E', E, <- !app_assoc.
    + constructor; [reflexivity|]. now apply Forall_app.
Qed.

Lemma epilogue_events env up c :
  Forall (fun e => is_epilogue_event e = true) (epilogue env up c).
Proof.
  unfold epilogue, results_events, download_events.
  repeat (apply Forall_app; split); repeat constructor.
  - destruct (Counter.truthy c); [|repeat constructor].
    apply List.Forall_forall. intros e He. apply in_map_iff in He as (kv & <- & _).
    reflexivity.
  - destruct (disk_at_end env !! out_path env) as [data|]; [|constructor].
    destruct (decide (Z.of_nat (length data) > 0)); repeat constructor.
Qed.

(** ** Failing before the loop *)

(** C5: when the model artifact cannot be loaded, the page shows an error
    naming the model path and the cause and stops; the input video has not
    been opened and no frame has been read, classified or written. *)
Theorem model_load_failure_aborts_first (env : Env) (cause : string) :
  YOLO env MODEL_PATH = inl cause ->
  run env
  = (Stop,
     {| log := [load_model MODEL_PATH;
                st_error ("❌ Failed to load model at '" +:+ MODEL_PATH
                          +:+ "': " +:+ cause)];
        shot_counter := Counter.empty; i := 0 |})
  /\ (forall p, ~ In (VideoCapture_open p) (log (run env).2))
  /\ Forall (fun e => is_frame_event e = false) (log (run env).2).
Proof.
  intros Hy. pose proof (run_shape env) as R.
  assert (E : run env
              = (Stop,
                 {| log := [load_model MODEL_PATH;
                            st_error ("❌ Failed to load model at '"
                                      +:+ MODEL_PATH +:+ "': " +:+ cause)];
                    shot_counter := Counter.empty; i := 0 |})).
  { inversion R; congruence. }
  rewrite E. simpl. split; [reflexivity|]. split.
  - intros p [H|[H|[]]]; discriminate.
  - repeat constructor.
Qed.

Lemma model_load_failure_witness :
  run Examples.env_no_model
  = (Stop,
     {| log := [load_model "my_model.pt";
                st_error
                  "❌ Failed to load model at 'my_model.pt': No such file or directory"];
        shot_counter := []; i := 0 |}).
Proof.
  apply (model_load_failure_aborts_first Examples.env_no_model
           "No such file or directory").
  reflexivity.
Defined.

(** Once the capture has opened, the log is the prelude, then events of the
    loop, then (unless the loop raised) the epilogue. *)
Lemma run_log_started (env : Env) (model : Detector) (up : UploadedFile) :
  YOLO env MODEL_PATH = inr model ->
  uploaded_file env = Some up ->
  cv2.isOpened (VideoCapture env (video_path env up)) = true ->
  exists l_loop,
    Forall (fun e => is_frame_event e = true) l_loop
    /\ ((exists msg, (run env).1 = Raise (LibraryError msg)
                     /\ log (run env).2 = prelude env up ++ l_loop)
        \/ ((run env).1 = Val tt
            /\ log (run env).2
               = prelude env up ++ l_loop
                 ++ epilogue env up (shot_counter (run env).2))).
Proof.
  intros Hy Hu Ho. pose proof (run_shape env) as R.
  inversion R as [e Hy' E|m Hy' Hu' E|m up' Hy' Hu' Ho' E
                 |m up' e w Hy' Hu' cap Ho' L E
                 |m up' w Hy' Hu' cap Ho' L E]; try congruence;
    assert (up' = up) by congruence; subst up';
    assert (m = model) by congruence; subst m.
  - destruct (LoopRun_raises_library _ _ _ _ _ _ _ _ _ L) as [msg ->].
    apply LoopRun_log in L as (l & El & Fl). simpl in *.
    exists l. split; [exact Fl|]. left. exists msg. now split.
  - apply LoopRun_log in L as (l & El & Fl). simpl in *.
    exists l. split; [exact Fl|]. right. split; [reflexivity|].
    now rewrite El.
Qed.

(** C6: when the uploaded file cannot be opened, the page shows an error and
    stops right after the failed open: the output writer is never opened and
    nothing is read or written. *)
Theorem unreadable_video_aborts (env : Env) (model : Detector)
    (up : UploadedFile) :
  YOLO env MODEL_PATH = inr model ->
  uploaded_file env = Some up ->
  cv2.isOpened (VideoCapture env (video_path env up)) = false ->
  run env
  = (Stop,
     {| log := [load_model MODEL_PATH;
                temp_in_write (video_path env up) (content up);
                VideoCapture_open (video_path env up);
                st_error
                  "❌ Could not open video. Please try a standard MP4 (H.264)."];
        shot_counter := Counter.empty; i := 0 |})
  /\ (forall p c f s, ~ In (VideoWriter_open p c f s) (log (run env).2))
  /\ frames_written (log (run env).2) = []
  /\ ~ download_offered (log (run env).2).
Proof.
  intros Hy Hu Ho. pose proof (run_shape env) as R.
  assert (E : run env
              = (Stop,
                 {| log := [load_model MODEL_PATH;
                            temp_in_write (video_path env up) (content up);
                            VideoCapture_open (video_path env up);
                            st_error
                              "❌ Could not open video. Please try a standard MP4 (H.264)."];
                    shot_counter := Counter.empty; i := 0 |})).
  { inversion R as [e Hy' E|m Hy' Hu' E|m up' Hy' Hu' Ho' E
                 |m up' e w Hy' Hu' cap Ho' L E
                 |m up' w Hy' Hu' cap Ho' L E]; try subst cap; congruence. }
  rewrite E. simpl. split; [reflexivity|]. split; [|split].
  - intros p c f s [H|[H|[H|[H|[]]]]]; discriminate.
  - reflexivity.
  - intros (lb & d & fn & mi & [H|[H|[H|[H|[]]]]]); discriminate.
Qed.

Lemma unreadable_video_witness :
  (forall p c f s,
      ~ In (VideoWriter_open p c f s) (log (run Examples.env_unreadable).2))
  /\ frames_written (log (run Examples.env_unreadable).2) = [].
Proof.
  pose proof (unreadable_video_aborts Examples.env_unreadable
                Examples.float_model
                {| name := "rally.mp4"; content := [] |}
                eq_refl eq_refl eq_refl) as (_ & Hw & Hf & _).
  exact (conj Hw Hf).
Defined.

Lemma In_run_log_outside_loop (env : Env) (model : Detector)
    (up : UploadedFile) (e : Event) :
  YOLO env MODEL_PATH = inr model ->
  uploaded_file env = Some up ->
  cv2.isOpened (VideoCapture env (video_path env up)) = true ->
  is_frame_event e = false ->
  In e (log (run env).2)
  <-> In e (prelude env up)
      \/ ((run env).1 = Val tt
          /\ In e (epilogue env up (shot_counter (run env).2))).
Proof.
  intros Hy Hu Ho He.
  destruct (run_log_started env model up Hy Hu Ho) as (l & Fl & S).
  assert (Hl : ~ In e l).
  { intros Hin. rewrite List.Forall_forall in Fl. apply Fl in Hin. congruence. }
  destruct S as [(msg & Er & El)|(Er & El)]; rewrite El, Er.
  - rewrite in_app_iff. split; [intros [?|?]; [now left|tauto]|].
    intros [?|[? _]]; [now left|discriminate].
  - rewrite !in_app_iff. tauto.
Qed.

(** C8: the writer is opened once, at the output path, with the frame rate
    the capture reports, or 25.0 when the capture reports 0, and with the
    width and height the capture reports (as integers). *)
Theorem writer_frame_rate_fallback (env : Env) (model : Detector)
    (up : UploadedFile) :
  YOLO env MODEL_PATH = inr model ->
  uploaded_file env = Some up ->
  cv2.isOpened (VideoCapture env (video_path env up)) = true ->
  let cap := VideoCapture env (video_path env up) in
  exists rate W H,
    (forall p c f s,
        In (VideoWriter_open p c f s) (log (run env).2)
        <-> (p, c, f, s) = (out_path env, "mp4v", rate, (W, H)))
    /\ (cv2.get cap cv2.CAP_PROP_FPS == 0 -> rate = 25.0%Q)
    /\ (~ cv2.get cap cv2.CAP_PROP_FPS == 0 ->
        rate = cv2.get cap cv2.CAP_PROP_FPS)
    /\ W = Py.int (cv2.get cap cv2.CAP_PROP_FRAME_WIDTH)
    /\ H = Py.int (cv2.get cap cv2.CAP_PROP_FRAME_HEIGHT)
    /\ (forall k, cv2.get cap cv2.CAP_PROP_FRAME_WIDTH == inject_Z k -> W = k)
    /\ (forall k, cv2.get cap cv2.CAP_PROP_FRAME_HEIGHT == inject_Z k -> H = k).
Proof.
  intros Hy Hu Ho cap.
  exists (fps cap), (width cap), (height cap).
  split; [|repeat split].
  - intros p c f s.
    rewrite (In_run_log_outside_loop env model up
               (VideoWriter_open p c f s) Hy Hu Ho eq_refl).
    split.
    + intros [Hin|[_ Hin]].
      * simpl in Hin.
        destruct Hin as [H|[H|[H|[H|[H|[H|[H|[]]]]]]]]; try discriminate.
        now inversion H.
      * pose proof (epilogue_events env up (shot_counter (run env).2)) as F.
        rewrite List.Forall_forall in F. apply F in Hin. discriminate.
    + intros E. inversion E; subst. left. simpl. tauto.
  - unfold fps, Py.or_. intros E. apply Qeq_bool_iff in E. now rewrite E.
  - unfold fps, Py.or_. intros E.
    destruct (Qeq_bool (cv2.get cap cv2.CAP_PROP_FPS) 0) eqn:B; [|reflexivity].
    apply Qeq_bool_iff in B. contradiction.
  - apply Py_int_or_0.
  - apply Py_int_or_0.
  - intros k E. unfold width. rewrite Py_int_or_0.
    now apply Py_int_Qeq_inject_Z.
  - intros k E. unfold height. rewrite Py_int_or_0.
    now apply Py_int_Qeq_inject_Z.
Qed.

Lemma writer_frame_rate_witness :
  In (VideoWriter_open "/tmp/processed_00.mp4" "mp4v" 25.0 (2, 2))
    (log (run Examples.env_ok).2).
Proof.
  destruct (writer_frame_rate_fallback Examples.env_ok Examples.float_model
              {| name := "rally.mp4"; content := [] |}
              eq_refl eq_refl eq_refl)
    as (rate & W & H & Hin & H0 & _ & HW & HH & _).
  apply Hin.
  rewrite (H0 (eq_refl : (0 * 1 = 0 * 1)%Z)), HW, HH. reflexivity.
Defined.

Lemma run_not_started (env : Env) :
  ~ started env ->
  (run env).1 = Stop
  /\ Forall (fun e => is_frame_event e = false
                      /\ is_epilogue_event e = false) (log (run env).2).
Proof.
  intros N. pose proof (run_shape env) as R.
  inversion R as [e Hy E|m Hy Hu E|m up Hy Hu Ho E
                 |m up e w Hy Hu cap Ho L E
                 |m up w Hy Hu cap Ho L E]; simpl;
    try (exfalso; apply N; exists m, up; tauto);
    split; try reflexivity; repeat constructor.
Qed.

Lemma started_dec (env : Env) : started env \/ ~ started env.
Proof.
  unfold started.
  destruct (YOLO env MODEL_PATH) as [e|model] eqn:Hy;
    [right; intros (m & u & H & _); discriminate|].
  destruct (uploaded_file env) as [up|] eqn:Hu;
    [|right; intros (m & u & _ & H & _); discriminate].
  destruct (cv2.isOpened (VideoCapture env (video_path env up))) eqn:Ho.
  - left. exists model, up. tauto.
  - right. intros (m & u & _ & H & H'). congruence.
Qed.

Lemma download_button_in_epilogue env up c lb d fn mi :
  In (st_download_button lb d fn mi) (epilogue env up c)
  <-> In (st_download_button lb d fn mi) (download_events env up).
Proof.
  unfold epilogue, results_events. rewrite !in_app_iff. split; [|tauto].
  intros [Hin|[Hin|[Hin|Hin]]]; [| | |exact Hin]; exfalso.
  - destruct Hin as [H|[H|[]]]; discriminate.
  - destruct Hin as [H|Hin]; [discriminate|].
    destruct (Counter.truthy c).
    + apply in_map_iff in Hin as (kv & H & _). discriminate.
    + destruct Hin as [H|[]]. discriminate.
  - destruct Hin as [H|[]]. discriminate.
Qed.

(** The claim C10 fails for a run that ends with an exception: the output
    file exists and is not empty, the detector raises on the first frame,
    and no download button is shown. *)
Lemma no_download_after_abort :
  output_nonempty Examples.env_raises
  /\ (run Examples.env_raises).1 = Raise (LibraryError "inference failed")
  /\ ~ download_offered (log (run Examples.env_raises).2).
Proof.
  split; [|split].
  - exists [Byte.x00; Byte.x01]. split; [reflexivity|simpl; lia].
  - reflexivity.
  - intros (lb & d & fn & mi & Hin). vm_compute in Hin.
    repeat (destruct Hin as [Hin|Hin]; [discriminate|]). exact Hin.
Qed.

(** C10, amended: a download button is shown exactly when the run gets as
    far as the download guard, that is when it ends normally, and the output
    file exists and is not empty.  So no button is shown when there is no
    file or an empty one, nor after a run that stops early or ends with an
    exception, whatever is on disk. *)
Theorem download_guard (env : Env) :
  download_offered (log (run env).2)
  <-> (run env).1 = Val tt /\ output_nonempty env.
Proof.
  destruct (started_dec env) as [(model & up & Hy & Hu & Ho)|N].
  - unfold download_offered, output_nonempty. split.
    + intros (lb & d & fn & mi & Hin).
      apply (In_run_log_outside_loop env model up
               (st_download_button lb d fn mi) Hy Hu Ho eq_refl) in Hin.
      destruct Hin as [Hin|[Hv Hin]].
      * simpl in Hin.
        destruct Hin as [H|[H|[H|[H|[H|[H|[H|[]]]]]]]]; discriminate.
      * split; [exact Hv|].
        apply download_button_in_epilogue in Hin. unfold download_events in Hin.
        destruct (disk_at_end env !! out_path env) as [data|]; [|easy].
        destruct (decide (Z.of_nat (length data) > 0)); [|easy].
        exists data. split; [reflexivity|lia].
    + intros (Hv & data & Ed & Hlen).
      exists "⬇️ Download Processed Video", data,
        ("processed_" +:+ name up), "video/mp4".
      apply (In_run_log_outside_loop env model up
               (st_download_button "⬇️ Download Processed Video" data
                  ("processed_" +:+ name up) "video/mp4") Hy Hu Ho eq_refl).
      right. split; [exact Hv|]. apply download_button_in_epilogue.
      unfold download_events. rewrite Ed.
      destruct (decide (Z.of_nat (length data) > 0)); [|lia].
      simpl. tauto.
  - destruct (run_not_started env N) as [Es F]. split.
    + intros (lb & d & fn & mi & Hin). rewrite List.Forall_forall in F.
      apply F in Hin as [_ Hin]. discriminate.
    + rewrite Es. intros [H _]. discriminate.
Qed.

Lemma download_guard_witness :
  download_offered (log (run Examples.env_ok).2).
Proof.
  apply (proj2 (download_guard Examples.env_ok)). split.
  - reflexivity.
  - exists [Byte.x00; Byte.x01]. split; [reflexivity|simpl; lia].
Defined.

(** A run that leaves an empty file shows no download button. *)
Example empty_output_not_offered :
  ~ download_offered (log (run Examples.env_empty_output).2).
Proof.
  intros (lb & d & fn & mi & Hin). vm_compute in Hin.
  repeat (destruct Hin as [Hin|Hin]; [discriminate|]). exact Hin.
Qed.

(** ** The tally along a run *)

Lemma detections_app model l l' :
  detections model (l ++ l') = detections model l ++ detections model l'.
Proof. unfold detections. apply flat_map_app. Qed.

Lemma detections_none model l :
  Forall (fun e => match e with model_predict _ => False | _ => True end) l ->
  detections model l = [].
Proof.
  induction 1 as [|e l He _ IH]; [reflexivity|].
  change (e :: l) with ([e] ++ l). rewrite detections_app, IH.
  destruct e; simpl; try reflexivity. contradiction.
Qed.

Lemma detections_progress model fc n :
  detections model (progress_events fc n) = [].
Proof. unfold progress_events. now destruct (decide (fc > 0)). Qed.

Lemma FrameStep_tally env model fc W H frame w out :
  FrameStep env model fc W H frame w out ->
  tally_ok model w -> tally_ok model out.2.
Proof.
  unfold tally_ok.
  destruct 1 as [msg Em|r e Em En|r a msg Em En Ew|r a Em En Ew];
    simpl; intros [Hn Ht]; rewrite ?detections_app, ?in_scope_count_app;
    simpl; rewrite Em; rewrite ?detections_progress, ?app_nil_r.
  - split; [exact Hn|]. unfold in_scope_count at 2. simpl. lia.
  - split; [now apply count_shots_nonneg|]. rewrite count_shots_total. lia.
  - split; [now apply count_shots_nonneg|]. rewrite count_shots_total. lia.
  - split; [now apply count_shots_nonneg|]. rewrite count_shots_total. lia.
Qed.

Lemma tally_ok_add_log model w l :
  Forall (fun e => match e with model_predict _ => False | _ => True end) l ->
  tally_ok model w -> tally_ok model (add_log w l).
Proof.
  unfold tally_ok. intros F [Hn Ht]. simpl.
  rewrite detections_app, (detections_none model l F), app_nil_r. now split.
Qed.

Lemma LoopRun_tally env model fc W H stream w out :
  LoopRun env model fc W H stream w out ->
  tally_ok model w -> tally_ok model out.2.
Proof.
  induction 1 as [w|rest w|frame rest w e w' S|frame rest w w' out S L IH];
    intros T.
  - apply tally_ok_add_log; [repeat constructor|exact T].
  - apply tally_ok_add_log; [repeat constructor|exact T].
  - apply (FrameStep_tally _ _ _ _ _ _ _ _ S).
    apply tally_ok_add_log; [repeat constructor|exact T].
  - apply IH. apply (FrameStep_tally _ _ _ _ _ _ _ _ S).
    apply tally_ok_add_log; [repeat constructor|exact T].
Qed.

Lemma epilogue_no_predict env up c :
  Forall (fun e => match e with model_predict _ => False | _ => True end)
    (epilogue env up c).
Proof.
  eapply Forall_impl; [apply epilogue_events|].
  intros [] E; simpl in *; try exact I; discriminate.
Qed.

(** C2: the counts are never negative and always add up to the number of
    detections with a class id in {0,1,2} gone through so far; a detection
    with another class id changes nothing.  This holds after any sequence of
    detections, and in the state every run of the page ends in. *)
Theorem shot_tally_invariant :
  (forall bs : list Box,
      counts_nonneg (fold_left count_shot bs Counter.empty)
      /\ Counter.total (fold_left count_shot bs Counter.empty)
         = in_scope_count bs)
  /\ (forall (c : Counter.t) (b : Box),
         in_scope b = false -> count_shot c b = c)
  /\ (forall env : Env,
         counts_nonneg (shot_counter (run env).2)
         /\ Counter.total (shot_counter (run env).2)
            = in_scope_count
                match YOLO env MODEL_PATH with
                | inr model => detections model (log (run env).2)
                | inl _ => []
                end).
Proof.
  split; [|split].
  - intros bs. split.
    + apply count_shots_nonneg. constructor.
    + rewrite count_shots_total. reflexivity.
  - intros c b Hb. unfold count_shot.
    now rewrite (class_map_out_of_scope b Hb).
  - intros env. pose proof (run_shape env) as R.
    inversion R as [e Hy E|m Hy Hu E|m up Hy Hu Ho E
                   |m up e w Hy Hu cap Ho L E
                   |m up w Hy Hu cap Ho L E]; simpl; rewrite Hy.
    + split; [constructor|reflexivity].
    + split; [constructor|reflexivity].
    + split; [constructor|reflexivity].
    + apply (LoopRun_tally _ _ _ _ _ _ _ _ L).
      split; [constructor|reflexivity].
    + apply (tally_ok_add_log m w _ (epilogue_no_predict env up _)).
      apply (LoopRun_tally _ _ _ _ _ _ _ _ L).
      split; [constructor|reflexivity].
Qed.

Lemma shot_tally_witness :
  count_shot [("Forehand", 1)] {| cls0 := 7 |} = [("Forehand", 1)].
Proof.
  apply (proj1 (proj2 shot_tally_invariant)). reflexivity.
Defined.

(** The detections of the sample run: three boxes on each of two frames, of
    which the class ids 0 and 1 count. *)
Example tally_of_sample_run :
  shot_counter (run Examples.env_ok).2 = [("Forehand", 2); ("Backhand", 2)].
Proof. reflexivity. Qed.

(** ** Reads and writes along a run *)

Lemma frame_io_app l l' : frame_io (l ++ l') = frame_io l ++ frame_io l'.
Proof. apply omap_app. Qed.

Lemma frame_io_progress fc n : frame_io (progress_events fc n) = [].
Proof. unfold progress_events. now destruct (decide (fc > 0)). Qed.

Lemma frame_io_none l :
  Forall (fun e => match e with
                   | cap_read (Some _) | writer_write _ => False
                   | _ => True
                   end) l ->
  frame_io l = [].
Proof.
  induction 1 as [|e l He _ IH]; [reflexivity|].
  change (e :: l) with ([e] ++ l). rewrite frame_io_app, IH.
  destruct e as [| | | | | | | | | | | | |[f|]| | | | |]; simpl;
    try reflexivity; contradiction.
Qed.

Lemma frames_read_io l :
  frames_read l
  = omap (fun x => match x with inl f => Some f | inr _ => None end)
      (frame_io l).
Proof.
  induction l as [|e l IH]; [reflexivity|].
  destruct e as [| | | | | | | | | | | | |[f|]| | | | |]; simpl;
    unfold frames_read, frame_io in *; simpl; rewrite ?IH; reflexivity.
Qed.

Lemma frames_written_io l :
  frames_written l
  = omap (fun x => match x with inl _ => None | inr g => Some g end)
      (frame_io l).
Proof.
  induction l as [|e l IH]; [reflexivity|].
  destruct e as [| | | | | | | | | | | | |[f|]| | | | |]; simpl;
    unfold frames_written, frame_io in *; simpl; rewrite ?IH; reflexivity.
Qed.

Lemma lefts_interleave pairs :
  omap (fun x : ndarray + ndarray =>
          match x with inl f => Some f | inr _ => None end) (interleave pairs)
  = map fst pairs.
Proof.
  induction pairs as [|[f g] ps IH]; [reflexivity|].
  change (interleave ((f, g) :: ps)) with (inl f :: inr g :: interleave ps).
  simpl. f_equal. exact IH.
Qed.

Lemma rights_interleave pairs :
  omap (fun x : ndarray + ndarray =>
          match x with inl _ => None | inr g => Some g end) (interleave pairs)
  = map snd pairs.
Proof.
  induction pairs as [|[f g] ps IH]; [reflexivity|].
  change (interleave ((f, g) :: ps)) with (inl f :: inr g :: interleave ps).
  simpl. f_equal. exact IH.
Qed.

Lemma LoopRun_io env model fc W H stream w w' :
  LoopRun env model fc W H stream w (Val tt, w') ->
  exists pairs,
    map fst pairs = read_prefix stream
    /\ Forall (fun p => written_for env model W H p.1 p.2) pairs
    /\ frame_io (log w') = frame_io (log w) ++ interleave pairs.
Proof.
  intros L. remember (Val tt, w') as out eqn:E. revert w' E.
  induction L as [w|rest w|frame rest w e w1 S|frame rest w w1 out S L IH];
    intros w' E; inversion E; subst.
  - exists []. simpl. rewrite frame_io_app. simpl. auto.
  - exists []. simpl. rewrite frame_io_app. simpl. auto.
  - destruct (IH w' eq_refl) as (pairs & Hp & Hf & Hio).
    inversion S as [| | |r a Em En Ew Ev]; subst.
    exists ((frame, cv2.cvtColor_RGB2BGR a) :: pairs). simpl. split; [|split].
    + now rewrite Hp.
    + constructor; [|exact Hf]. exists r, a. auto.
    + rewrite Hio. simpl. rewrite !frame_io_app.
      change (frame_io (model_predict frame
                        :: writer_write (cv2.cvtColor_RGB2BGR a)
                        :: progress_events fc (i w + 1)))
        with (inr (B := ndarray) (cv2.cvtColor_RGB2BGR a)
              :: frame_io (progress_events fc (i w + 1))).
      rewrite frame_io_progress. simpl. now rewrite <- !app_assoc.
Qed.

(** C1: in a run that ends normally, the frames handed to the writer pair off
    with the frames read, one for one and in the same order: each read is
    followed by the write of that frame's processed image before the next
    read; and the frames read are all the frames the capture gives before
    its first failed read. *)
Theorem frames_written_match_frames_read (env : Env) :
  (run env).1 = Val tt ->
  exists model up pairs,
    YOLO env MODEL_PATH = inr model
    /\ uploaded_file env = Some up
    /\ frames_read (log (run env).2) = map fst pairs
    /\ frames_written (log (run env).2) = map snd pairs
    /\ length (frames_written (log (run env).2))
       = length (frames_read (log (run env).2))
    /\ frame_io (log (run env).2) = interleave pairs
    /\ (let cap := VideoCapture env (video_path env up) in
        map fst pairs = read_prefix (cv2.reads cap)
        /\ Forall (fun p =>
                     written_for env model (width cap) (height cap) p.1 p.2)
             pairs).
Proof.
  intros Hv. pose proof (run_shape env) as R.
  inversion R as [e Hy E|m Hy Hu E|m up Hy Hu Ho E
                 |m up e w Hy Hu cap Ho L E
                 |m up w Hy Hu cap Ho L E];
    try (rewrite <- E in Hv; discriminate).
  destruct (LoopRun_io _ _ _ _ _ _ _ _ L) as (pairs & Hp & Hf & Hio).
  assert (Hio' : frame_io (log (add_log w (epilogue env up (shot_counter w))))
                 = interleave pairs).
  { simpl. rewrite frame_io_app, Hio.
    rewrite (frame_io_none (epilogue _ _ _)).
    - now rewrite app_nil_r.
    - eapply Forall_impl; [apply epilogue_events|].
      intros [| | | | | | | | | | | | |[f|]| | | | |] He; simpl in *;
        try exact I; discriminate. }
  exists m, up, pairs. simpl.
  rewrite frames_read_io, frames_written_io. simpl in Hio'. rewrite Hio'.
  rewrite lefts_interleave, rights_interleave, !length_map.
  repeat split; auto.
Qed.

Lemma frames_written_match_witness :
  length (frames_written (log (run Examples.env_ok).2)) = 2%nat
  /\ length (frames_read (log (run Examples.env_ok).2)) = 2%nat.
Proof.
  destruct (frames_written_match_frames_read Examples.env_ok eq_refl)
    as (model & up & pairs & _ & _ & _ & _ & Hlen & _).
  split; [rewrite Hlen|]; reflexivity.
Defined.

(** ** Releasing the capture and the writer *)

Lemma frame_events_not_release l :
  Forall (fun e => is_frame_event e = true) l ->
  Forall (fun e => is_release e = false) l.
Proof.
  intros F. eapply Forall_impl; [exact F|].
  intros [] E; simpl in *; try reflexivity; discriminate.
Qed.

Lemma prelude_not_release env up :
  Forall (fun e => is_release e = false) (prelude env up).
Proof. repeat constructor. Qed.

Lemma after_release_quiet env up c :
  Forall (fun e => is_release e = false)
    (results_events c ++ [st_tip (random_choice env feedback_tips)]
     ++ download_events env up)
  /\ Forall (fun e => is_frame_event e = false)
       (results_events c ++ [st_tip (random_choice env feedback_tips)]
        ++ download_events env up).
Proof.
  assert (F : Forall (fun e => is_release e = false
                               /\ is_frame_event e = false)
                (results_events c
                 ++ [st_tip (random_choice env feedback_tips)]
                 ++ download_events env up)).
  { unfold results_events, download_events.
    repeat (apply Forall_app; split); repeat constructor.
    - destruct (Counter.truthy c); [|repeat constructor].
      apply List.Forall_forall. intros e He.
      apply in_map_iff in He as (kv & <- & _). now split.
    - destruct (disk_at_end env !! out_path env) as [data|]; [|constructor].
      destruct (decide (Z.of_nat (length data) > 0)); repeat constructor. }
  split; (eapply Forall_impl; [exact F|]); intros e [? ?]; assumption.
Qed.

(** The claim C3 fails when the detector raises: the capture and the writer
    have been opened, the run ends with the detector's exception, and neither
    [cap.release()] nor [writer.release()] has been called. *)
Lemma detector_error_skips_release :
  pipeline_started (log (run Examples.env_raises).2)
  /\ (run Examples.env_raises).1 = Raise (LibraryError "inference failed")
  /\ ~ In cap_release (log (run Examples.env_raises).2)
  /\ ~ In writer_release (log (run Examples.env_raises).2)
  /\ ~ releases_both (log (run Examples.env_raises).2).
Proof.
  assert (N : Forall (fun e => is_release e = false)
                (log (run Examples.env_raises).2)).
  { vm_compute. repeat constructor. }
  rewrite List.Forall_forall in N.
  repeat split.
  - exists "/tmp/processed_00.mp4", "mp4v", 25.0%Q, (2, 2).
    vm_compute. tauto.
  - intros H. apply N in H. discriminate.
  - intros H. apply N in H. discriminate.
  - intros [H _]. apply N in H. discriminate.
Qed.

Lemma frame_events_not_result l :
  Forall (fun e => is_frame_event e = true) l ->
  Forall (fun e => is_result_event e = false) l.
Proof.
  intros F. eapply Forall_impl; [exact F|].
  intros [] E; simpl in *; try reflexivity; discriminate.
Qed.

Lemma prelude_not_result env up :
  Forall (fun e => is_result_event e = false) (prelude env up).
Proof. repeat constructor. Qed.

(** C3, amended: once the writer has been opened the run ends in one of two
    ways.  Either the loop ends on a read that gives no frame (end of stream
    or a failed read): then [cap.release()] and [writer.release()] are called,
    once each and in this order, after the last frame event and before
    anything of the results is shown; the results heading comes right after
    them.  Or a call in the loop body raises: then the run ends there,
    neither is called and nothing of the results is shown. *)
Theorem releases_after_loop_only (env : Env) :
  pipeline_started (log (run env).2) ->
  match (run env).1 with
  | Val _ =>
      exists before after,
        log (run env).2 = before ++ [cap_release; writer_release] ++ after
        /\ Forall (fun e => is_release e = false) before
        /\ Forall (fun e => is_result_event e = false) before
        /\ Forall (fun e => is_release e = false) after
        /\ Forall (fun e => is_frame_event e = false) after
        /\ exists rest, after = st_subheader "📊 Results" :: rest
  | Stop => False
  | Raise _ =>
      Forall (fun e => is_release e = false) (log (run env).2)
      /\ Forall (fun e => is_result_event e = false) (log (run env).2)
  end.
Proof.
  intros (p & c & f & s & Hin). pose proof (run_shape env) as R.
  inversion R as [e Hy E|m Hy Hu E|m up Hy Hu Ho E
                 |m up e w Hy Hu cap Ho L E
                 |m up w Hy Hu cap Ho L E]; rewrite <- E in Hin; simpl in *.
  - destruct Hin as [H|[H|[]]]; discriminate.
  - destruct Hin as [H|[H|[]]]; discriminate.
  - destruct Hin as [H|[H|[H|[H|[]]]]]; discriminate.
  - apply LoopRun_log in L as (l & El & Fl). simpl in El. rewrite El.
    change (Forall (fun e => is_release e = false) (prelude env up ++ l)
            /\ Forall (fun e => is_result_event e = false)
                 (prelude env up ++ l)).
    split; apply Forall_app; split;
      auto using prelude_not_release, frame_events_not_release,
        prelude_not_result, frame_events_not_result.
  - apply LoopRun_log in L as (l & El & Fl). simpl in El.
    destruct (after_release_quiet env up (shot_counter w)) as [Fr Ff].
    exists (prelude env up ++ l),
      (results_events (shot_counter w)
       ++ [st_tip (random_choice env feedback_tips)]
       ++ download_events env up).
    split; [rewrite El; reflexivity|].
    split; [apply Forall_app; split;
            auto using prelude_not_release, frame_events_not_release|].
    split; [apply Forall_app; split;
            auto using prelude_not_result, frame_events_not_result|].
    split; [exact Fr|]. split; [exact Ff|].
    unfold results_events. simpl. eauto.
Qed.

Lemma releases_after_loop_witness :
  exists before after,
    log (run Examples.env_ok).2
    = before ++ [cap_release; writer_release] ++ after.
Proof.
  assert (S : pipeline_started (log (run Examples.env_ok).2)).
  { exists "/tmp/processed_00.mp4", "mp4v", 25.0%Q, (2, 2).
    vm_compute. tauto. }
  pose proof (releases_after_loop_only Examples.env_ok S) as T.
  change (run Examples.env_ok).1 with (Val tt : Res unit) in T.
  destruct T as (before & after & E & _).
  exists before, after. exact E.
Defined.

(** ** Progress *)

Lemma StronglySorted_snoc (l : list Q) (x : Q) :
  StronglySorted Qle l -> Forall (fun y => y <= x)%Q l ->
  StronglySorted Qle (l ++ [x]).
Proof.
  induction 1 as [|y l S IH F]; intros B; simpl.
  - repeat constructor.
  - inversion B; subst. constructor; [now apply IH|].
    apply Forall_app. split; [exact F|]. now constructor.
Qed.

Lemma progress_values_app l l' :
  progress_values (l ++ l') = progress_values l ++ progress_values l'.
Proof. apply omap_app. Qed.

Lemma progress_values_none l :
  Forall (fun e => match e with
                   | st_progress _ | progress_bar_progress _ => False
                   | _ => True
                   end) l ->
  progress_values l = [].
Proof.
  induction 1 as [|e l He _ IH]; [reflexivity|].
  change (e :: l) with ([e] ++ l). rewrite progress_values_app, IH.
  destruct e; simpl; try reflexivity; contradiction.
Qed.

Lemma progress_ok_add_log fc w l :
  Forall (fun e => match e with
                   | st_progress _ | progress_bar_progress _ => False
                   | _ => True
                   end) l ->
  progress_ok fc w -> progress_ok fc (add_log w l).
Proof.
  unfold progress_ok. intros F P. simpl.
  now rewrite progress_values_app, (progress_values_none l F), app_nil_r.
Qed.

Lemma progress_bound_step (fc n : Z) (q : Q) :
  0 < fc ->
  (q <= Py.min (inject_Z n / inject_Z fc) 1)%Q ->
  (q <= Py.min (inject_Z (n + 1) / inject_Z fc) 1)%Q.
Proof.
  intros Hfc Hq. eapply Qle_trans; [exact Hq|].
  apply Py_min_mono. apply truediv_mono; lia.
Qed.

Lemma FrameStep_progress env model fc W H frame w out :
  0 < fc ->
  FrameStep env model fc W H frame w out ->
  progress_ok fc w -> progress_ok fc out.2.
Proof.
  intros Hfc S. unfold progress_ok.
  destruct S as [msg Em|r e Em En|r a msg Em En Ew|r a Em En Ew];
    simpl; intros [Hs Hb]; rewrite ?progress_values_app; simpl;
    rewrite ?app_nil_r; try (split; assumption).
  unfold progress_events. destruct (decide (fc > 0)) as [_|N]; [|lia].
  simpl. split.
  - apply StronglySorted_snoc; [exact Hs|].
    eapply Forall_impl; [exact Hb|]. intros q Hq.
    now apply progress_bound_step.
  - apply Forall_app. split.
    + eapply Forall_impl; [exact Hb|]. intros q Hq.
      now apply progress_bound_step.
    + repeat constructor. apply Qle_refl.
Qed.

Lemma LoopRun_progress env model fc W H stream w out :
  0 < fc ->
  LoopRun env model fc W H stream w out ->
  progress_ok fc w -> progress_ok fc out.2.
Proof.
  intros Hfc.
  induction 1 as [w|rest w|frame rest w e w' S|frame rest w w' out S L IH];
    intros P.
  - apply progress_ok_add_log; [repeat constructor|exact P].
  - apply progress_ok_add_log; [repeat constructor|exact P].
  - apply (FrameStep_progress _ _ _ _ _ _ _ _ Hfc S).
    apply (progress_ok_add_log fc w [cap_read (Some frame)]);
      [repeat constructor|exact P].
  - apply IH. apply (FrameStep_progress _ _ _ _ _ _ _ _ Hfc S).
    apply (progress_ok_add_log fc w [cap_read (Some frame)]);
      [repeat constructor|exact P].
Qed.

(** With no positive frame count the loop reports nothing. *)
Lemma FrameStep_silent env model fc W H frame w out :
  fc <= 0 ->
  FrameStep env model fc W H frame w out ->
  exists l, log out.2 = log w ++ l
            /\ Forall (fun e => is_progress_report e = false) l.
Proof.
  intros Hfc S.
  destruct S as [msg Em|r e Em En|r a msg Em En Ew|r a Em En Ew]; simpl;
    eexists; split; try reflexivity; repeat constructor.
  unfold progress_events. destruct (decide (fc > 0)); [lia|constructor].
Qed.

Lemma LoopRun_silent env model fc W H stream w out :
  fc <= 0 ->
  LoopRun env model fc W H stream w out ->
  exists l, log out.2 = log w ++ l
            /\ Forall (fun e => is_progress_report e = false) l.
Proof.
  intros Hfc.
  induction 1 as [w|rest w|frame rest w e w' S|frame rest w w' out S L IH];
    simpl.
  - exists [cap_read None]. split; [reflexivity|repeat constructor].
  - exists [cap_read None]. split; [reflexivity|repeat constructor].
  - apply (FrameStep_silent _ _ _ _ _ _ _ _ Hfc) in S as (l & E & F).
    simpl in *. exists (cap_read (Some frame) :: l). split.
    + now rewrite E, <- app_assoc.
    + now constructor.
  - apply (FrameStep_silent _ _ _ _ _ _ _ _ Hfc) in S as (l & E & F).
    destruct IH as (l' & E' & F'). simpl in *.
    exists (cap_read (Some frame) :: l ++ l'). split.
    + now rewrite E', E, <- !app_assoc.
    + constructor; [reflexivity|]. now apply Forall_app.
Qed.

Lemma silent_no_progress_values l :
  Forall (fun e => is_progress_report e = false) l ->
  Forall (fun e => match e with st_progress _ => False | _ => True end) l ->
  progress_values l = [].
Proof.
  intros F G. apply progress_values_none.
  rewrite List.Forall_forall in *. intros e He.
  specialize (F e He). specialize (G e He).
  destruct e; simpl in *; auto; discriminate.
Qed.

Lemma epilogue_no_progress env up c :
  Forall (fun e => is_progress_report e = false) (epilogue env up c)
  /\ Forall (fun e => match e with
                      | st_progress _ | progress_bar_progress _ => False
                      | _ => True
                      end) (epilogue env up c).
Proof.
  split; (eapply Forall_impl; [apply epilogue_events|]);
    intros [] E; simpl in *; try reflexivity; try exact I; discriminate.
Qed.

Lemma loop_progress_summary env model up out :
  let cap := VideoCapture env (video_path env up) in
  LoopRun env model (frame_count cap) (width cap) (height cap)
    (cv2.reads cap) (loop_start env up) out ->
  progress_summary (frame_count cap) (log out.2).
Proof.
  intros cap L. unfold progress_summary.
  destruct (decide (0 < frame_count cap)) as [Hfc|Hfc].
  - assert (P0 : progress_ok (frame_count cap) (loop_start env up)).
    { split; simpl.
      - repeat constructor.
      - repeat constructor. unfold Py.min.
        destruct (Qle_bool (inject_Z 0 / inject_Z (frame_count cap)) 1);
          [|discriminate].
        unfold Qdiv. rewrite Qmult_0_l. apply Qle_refl. }
    destruct (LoopRun_progress _ _ _ _ _ _ _ _ Hfc L P0) as [Hs Hb].
    split; [exact Hs|]. split; [|lia].
    eapply Forall_impl; [exact Hb|]. intros q Hq.
    eapply Qle_trans; [exact Hq|apply Py_min_le_r].
  - assert (Hle : frame_count cap <= 0) by lia.
    destruct (LoopRun_silent _ _ _ _ _ _ _ _ Hle L) as (l & El & Fl).
    destruct (LoopRun_log _ _ _ _ _ _ _ _ L) as (l' & El' & Fl').
    assert (l' = l) by (rewrite El in El'; now apply app_inv_head in El').
    subst l'.
    assert (Ep : progress_values (log out.2) = [0%Q]).
    { rewrite El. simpl log. rewrite progress_values_app.
      rewrite (silent_no_progress_values l Fl); [reflexivity|].
      eapply Forall_impl; [exact Fl'|].
      intros [] E; simpl in *; try exact I; discriminate. }
    rewrite Ep. split; [repeat constructor|].
    split; [repeat constructor; discriminate|].
    intros _. split; [|repeat constructor].
    rewrite El. apply Forall_app. split; [repeat constructor|exact Fl].
Qed.

Lemma progress_summary_epilogue env up c fc l :
  progress_summary fc l -> progress_summary fc (l ++ epilogue env up c).
Proof.
  unfold progress_summary. intros (Hs & Hb & Hq).
  destruct (epilogue_no_progress env up c) as [F G].
  rewrite progress_values_app, (progress_values_none _ G), app_nil_r.
  repeat split; auto.
  - apply Forall_app. split; [now apply Hq|exact F].
  - now apply Hq.
Qed.

(** The claim C4 fails on its last part: with a reported frame count of 0 a
    frame is read, processed and written, and no frame-count string (nor
    anything else) is reported for it. *)
Lemma no_status_text_without_frame_count :
  frame_count Examples.no_count = 0
  /\ length (frames_written (log (run Examples.env_no_count).2)) = 1%nat
  /\ (forall msg,
         ~ In (status_text_text msg) (log (run Examples.env_no_count).2)).
Proof.
  split; [reflexivity|]. split; [reflexivity|].
  assert (N : Forall (fun e => is_progress_report e = false)
                (log (run Examples.env_no_count).2)).
  { vm_compute. repeat constructor. }
  rewrite List.Forall_forall in N.
  intros msg H. apply N in H. discriminate.
Qed.

(** C4, amended: in every run the fractions shown on the progress bar never
    decrease and never exceed 1, and no division by zero is raised; when the
    reported frame count is 0 or negative the loop reports nothing at all,
    neither a bar fraction nor a status text, and the bar keeps the 0 it was
    created with. *)
Theorem progress_reporting (env : Env) :
  StronglySorted Qle (progress_values (log (run env).2))
  /\ Forall (fun q => q <= 1)%Q (progress_values (log (run env).2))
  /\ (run env).1 <> Raise ZeroDivisionError
  /\ (forall up,
         uploaded_file env = Some up ->
         frame_count (VideoCapture env (video_path env up)) <= 0 ->
         Forall (fun e => is_progress_report e = false) (log (run env).2)
         /\ Forall (fun q => q = 0%Q) (progress_values (log (run env).2))).
Proof.
  pose proof (run_shape env) as R.
  inversion R as [e Hy E|m Hy Hu E|m up Hy Hu Ho E
                 |m up e w Hy Hu cap Ho L E
                 |m up w Hy Hu cap Ho L E]; simpl.
  - repeat split; repeat constructor; discriminate.
  - repeat split; repeat constructor; discriminate.
  - repeat split; repeat constructor; discriminate.
  - destruct (LoopRun_raises_library _ _ _ _ _ _ _ _ _ L) as [msg ->].
    destruct (loop_progress_summary env m up _ L) as (Hs & Hb & Hq).
    simpl in *. split; [exact Hs|]. split; [exact Hb|].
    split; [discriminate|].
    intros up' Hu' Hfc. assert (up' = up) by congruence. subst up'. auto.
  - destruct (progress_summary_epilogue env up (shot_counter w) _ _
                (loop_progress_summary env m up _ L)) as (Hs & Hb & Hq).
    simpl in *. split; [exact Hs|]. split; [exact Hb|].
    split; [discriminate|].
    intros up' Hu' Hfc. assert (up' = up) by congruence. subst up'. auto.
Qed.

Lemma progress_reporting_witness :
  Forall (fun e => is_progress_report e = false)
    (log (run Examples.env_no_count).2)
  /\ (run Examples.env_no_count).1 <> Raise ZeroDivisionError.
Proof.
  destruct (progress_reporting Examples.env_no_count) as (_ & _ & Hz & Hq).
  split; [|exact Hz].
  apply (Hq {| name := "rally.mp4"; content := [] |} eq_refl).
  vm_compute. discriminate.
Defined.

(** More frames than reported: the fraction stops at 1. *)
Example progress_is_capped :
  progress_values (log (run Examples.env_undercount).2) = [0; 1; 1]%Q.
Proof. reflexivity. Qed.

(** The fractions of the sample run with a reported count of 3. *)
Example progress_of_sample_run :
  progress_values (log (run Examples.env_ok).2) = [0; 1 # 3; 2 # 3]%Q.
Proof. reflexivity. Qed.

(** ** Normalizing the annotated frame *)

Lemma clip1_unit (v : Q) :
  let c := np.clip1 0 1 v in
  (0 <= c)%Q /\ (c <= 1)%Q
  /\ ((v <= 0)%Q -> c == 0)
  /\ ((1 <= v)%Q -> c == 1)
  /\ ((0 <= v)%Q -> (v <= 1)%Q -> c = v).
Proof.
  unfold np.clip1.
  destruct (Qle_bool 0 v) eqn:E0.
  - apply Qle_bool_iff in E0.
    destruct (Qle_bool v 1) eqn:E1.
    + apply Qle_bool_iff in E1.
      repeat split; auto; intros; try reflexivity; lra.
    + assert (1 < v)%Q.
      { apply Qnot_le_lt. intros H. apply Qle_bool_iff in H. congruence. }
      repeat split; intros; try lra; exfalso; lra.
  - assert (v < 0)%Q.
    { apply Qnot_le_lt. intros H. apply Qle_bool_iff in H. congruence. }
    change (Qle_bool 0 1) with true. cbv iota.
    repeat split; intros; try lra; exfalso; lra.
Qed.

Lemma round_to_value (fa : FloatArith) (d : Dtype) (x : Q) (k : Z) :
  0 <= k <= 255 -> x == inject_Z k -> round_to fa d x == inject_Z k.
Proof.
  intros Hk E. pose proof (round_to_exact fa d k Hk) as Ek.
  assert (H1 : (x <= inject_Z k)%Q) by (rewrite E; apply Qle_refl).
  assert (H2 : (inject_Z k <= x)%Q) by (rewrite E; apply Qle_refl).
  apply (round_to_mono fa d) in H1. apply (round_to_mono fa d) in H2.
  apply Qle_antisym.
  - eapply Qle_trans; [exact H1|]. rewrite Ek. apply Qle_refl.
  - eapply Qle_trans; [|exact H2]. rewrite Ek. apply Qle_refl.
Qed.

Lemma round_to_between (fa : FloatArith) (d : Dtype) (x : Q) (lo hi : Z) :
  0 <= lo <= 255 -> 0 <= hi <= 255 ->
  (inject_Z lo <= x)%Q -> (x <= inject_Z hi)%Q ->
  (inject_Z lo <= round_to fa d x)%Q /\ (round_to fa d x <= inject_Z hi)%Q.
Proof.
  intros Hlo Hhi Hl Hh.
  pose proof (round_to_exact fa d lo Hlo) as El.
  pose proof (round_to_exact fa d hi Hhi) as Eh.
  apply (round_to_mono fa d) in Hl. apply (round_to_mono fa d) in Hh.
  split.
  - eapply Qle_trans; [|exact Hl]. rewrite El. apply Qle_refl.
  - eapply Qle_trans; [exact Hh|]. rewrite Eh. apply Qle_refl.
Qed.

Lemma to_uint8_clip (fa : FloatArith) (d : Dtype) (v : Q) :
  clipped_scaled_8bit v
    (np.to_uint8 (round_to fa d (255 * np.clip1 0 1 v))).
Proof.
  destruct (clip1_unit v) as (H0 & H1 & Hlo & Hhi & Hmid).
  set (c := np.clip1 0 1 v) in *.
  set (x := (255 * c)%Q).
  assert (Hx0 : (0 <= x)%Q) by (subst x; lra).
  assert (Hx1 : (x <= 255)%Q) by (subst x; lra).
  destruct (round_to_between fa d x 0 255 ltac:(lia) ltac:(lia) Hx0 Hx1)
    as [Hy0 Hy1].
  set (y := round_to fa d x) in *.
  pose proof (Qfloor_resp_le _ _ Hy0) as Hk0.
  pose proof (Qfloor_resp_le _ _ Hy1) as Hk1.
  rewrite Qfloor_Z in Hk0, Hk1.
  unfold np.to_uint8. rewrite (Py_int_nonneg y) by exact Hy0.
  rewrite Z.mod_small by lia.
  exists (Qfloor y). split; [reflexivity|]. split; [lia|].
  split; [|split].
  - intros Hv. specialize (Hlo Hv).
    assert (Ey : y == inject_Z 0).
    { apply round_to_value; [lia|]. subst x. change (inject_Z 0) with 0%Q.
      lra. }
    rewrite (Qfloor_comp _ _ Ey). apply Qfloor_Z.
  - intros Hv. specialize (Hhi Hv).
    assert (Ey : y == inject_Z 255).
    { apply round_to_value; [lia|]. subst x.
      change (inject_Z 255) with 255%Q. lra. }
    rewrite (Qfloor_comp _ _ Ey). apply Qfloor_Z.
  - intros Ha Hb. rewrite <- (Hmid Ha Hb). fold x.
    pose proof (Qfloor_le x) as Hm0. pose proof (Qlt_floor x) as Hm1.
    pose proof (Qfloor_resp_le _ _ Hx0) as Hm2.
    pose proof (Qfloor_resp_le _ _ Hx1) as Hm3.
    change (Qfloor 0) with 0 in Hm2. change (Qfloor 255) with 255 in Hm3.
    set (m := Qfloor x) in *.
    rewrite inject_Z_plus in Hm1. change (inject_Z 1) with 1%Q in Hm1.
    assert (Hlow : m <= Qfloor y).
    { rewrite <- (Qfloor_Z m). apply Qfloor_resp_le.
      apply (round_to_between fa d x m 255); auto; lia. }
    rewrite Zle_Qle in Hlow. split; [lra|].
    destruct (Qeq_dec x (inject_Z m)) as [Ex|Nx].
    + assert (Ey : y == inject_Z m) by (apply round_to_value; [lia|exact Ex]).
      rewrite (Qfloor_comp _ _ Ey), Qfloor_Z. lra.
    + assert (Hlt : (inject_Z m < x)%Q).
      { apply Qle_lteq in Hm0 as [Hlt|Heq]; [exact Hlt|].
        exfalso. apply Nx. symmetry. exact Heq. }
      destruct (Z_le_gt_dec 255 m) as [Hm|Hm].
      * rewrite Zle_Qle in Hk1. rewrite Zle_Qle in Hm. lra.
      * assert (Hup : Qfloor y <= m + 1).
        { rewrite <- (Qfloor_Z (m + 1)). apply Qfloor_resp_le.
          apply (round_to_between fa d x 0 (m + 1)); auto; try lia.
          rewrite inject_Z_plus. change (inject_Z 1) with 1%Q. lra. }
        rewrite Zle_Qle in Hup. rewrite inject_Z_plus in Hup.
        change (inject_Z 1) with 1%Q in Hup. lra.
Qed.





(** Lines 125-130, read off the result. *)
Lemma normalize_returns (env : Env) (W H : Z) (annotated : option ndarray)
    (frame a : ndarray) :
  normalize env W H annotated frame = inr a ->
  exists a1,
    (dtype (default frame annotated) <> uint8 ->
     a1 = np.astype_uint8
            (np.mul (round_to (float_arith env)
                       (dtype (default frame annotated))) 255
               (np.clip (default frame annotated) 0 1)))
    /\ (dtype (default frame annotated) = uint8 ->
        a1 = default frame annotated)
    /\ ((shape1 a1, shape0 a1) <> (W, H) -> resize env a1 (W, H) = inr a)
    /\ ((shape1 a1, shape0 a1) = (W, H) -> a = a1).
Proof.
  unfold normalize. intros E.
  assert (E' :
    (let a0 := default frame annotated in
     let a1 := if decide (dtype a0 <> uint8)
               then np.astype_uint8
                      (np.mul (round_to (float_arith env) (dtype a0)) 255
                         (np.clip a0 0 1))
               else a0 in
     if decide ((shape1 a1, shape0 a1) <> (W, H))
     then match resize env a1 (W, H) with
          | inl msg => inl (LibraryError msg)
          | inr resized => inr resized
          end
     else inr a1) = inr a).
  { destruct annotated; exact E. }
  clear E. cbv zeta in E'.
  set (a0 := default frame annotated) in *.
  destruct (decide (dtype a0 <> uint8)) as [Hd|Hd];
    match type of E' with
    | context [decide ((shape1 ?x, shape0 ?x) <> _)] =>
        exists x; destruct (decide ((shape1 x, shape0 x) <> (W, H))) as [Hs|Hs]
    end;
    try (destruct (resize env _ (W, H)) as [msg|a'] eqn:Er);
    inversion E'; subst; repeat split; intros; try congruence;
    try contradiction.
Qed.






(** One value under two arithmetics: 255 times 1285/2560 is a little less
    than 128; its integer part is 127, and 128 when the product is rounded
    upwards first. *)
Example byte_depends_on_rounding :
  np.to_uint8 (round_to Examples.exact_arith float64
                 (255 * np.clip1 0 1 (1285 # 2560))) = 127%Q
  /\ np.to_uint8 (round_to Examples.whole_arith float64
                    (255 * np.clip1 0 1 (1285 # 2560))) = 128%Q.
Proof. split; reflexivity. Qed.

(** The overlay of the sample detector is [float32] with the values 3/4, 0
    and 1: they are written as 191, 0 and 255, red and blue swapped. *)
Example sample_frame_written :
  frames_written
    (log (process_frame Examples.env_ok Examples.float_model 3 2 2
            (Examples.img uint8 10) world0).2)
  = [ {| dtype := uint8;
         px := [[(255, 0, 191)%Q; (191, 191, 191)%Q];
                [(0, 0, 0)%Q; (255, 255, 255)%Q]] |} ].
Proof. reflexivity. Qed.

(** C9: the run never fails for reading an attribute off a missing
    annotation.  When [plot()] gives [None] the loop body goes on with the
    frame it read: it normalizes that frame and, unless resizing or writing
    raises, writes it (red and blue swapped) and finishes normally. *)
Theorem missing_annotation_falls_back :
  (forall (env : Env) (attr : string),
      (run env).1 <> Raise (AttributeError attr))
  /\ (forall (env : Env) (model : Detector) (fc W H : Z) (frame : ndarray)
             (w : World) (r : Results),
         model frame = inr r ->
         plot r = None ->
         (forall attr,
             (process_frame env model fc W H frame w).1
             <> Raise (AttributeError attr))
         /\ normalize env W H (plot r) frame
            = normalize env W H (Some frame) frame
         /\ (forall a,
                normalize env W H (Some frame) frame = inr a ->
                write_raises env (cv2.cvtColor_RGB2BGR a) = None ->
                (process_frame env model fc W H frame w).1 = Val tt
                /\ frames_written
                     (log (process_frame env model fc W H frame w).2)
                   = frames_written (log w) ++ [cv2.cvtColor_RGB2BGR a])).
Proof.
  split.
  - intros env attr. pose proof (run_shape env) as R.
    inversion R as [e Hy E|m Hy Hu E|m up Hy Hu Ho E
                   |m up e w Hy Hu cap Ho L E
                   |m up w Hy Hu cap Ho L E]; simpl; try discriminate.
    destruct (LoopRun_raises_library _ _ _ _ _ _ _ _ _ L) as [msg ->].
    discriminate.
  - intros env model fc W H frame w r Em Ep.
    pose proof (process_frame_step env model fc W H frame w) as S.
    split; [|split].
    + intros attr E.
      destruct (process_frame env model fc W H frame w) as [res w'].
      simpl in E. subst res.
      destruct (FrameStep_raises_library _ _ _ _ _ _ _ _ _ S) as [msg Hm].
      discriminate.
    + rewrite Ep. reflexivity.
    + intros a En Ew.
      assert (En' : normalize env W H (plot r) frame = inr a)
        by (rewrite Ep; exact En).
      inversion S as [msg Em'|r' e Em' En''|r' a' msg Em' En'' Ew'
                     |r' a' Em' En'' Ew']; subst; try congruence.
      assert (r' = r) by congruence. subst r'.
      assert (a' = a) by congruence. subst a'. simpl. split; [reflexivity|].
      unfold frames_written. rewrite omap_app. simpl.
      unfold progress_events. now destruct (decide (fc > 0)).
Qed.

Lemma missing_annotation_witness :
  frames_written
    (log (process_frame Examples.env_none_plot Examples.none_model 3 2 2
            (Examples.img uint8 10) world0).2)
  = [cv2.cvtColor_RGB2BGR (Examples.img uint8 10)].
Proof.
  destruct (proj2 missing_annotation_falls_back Examples.env_none_plot
              Examples.none_model 3 2 2 (Examples.img uint8 10) world0
              {| boxes := Examples.three_boxes; plot := None |}
              eq_refl eq_refl) as (_ & _ & Hw).
  destruct (Hw (Examples.img uint8 10) eq_refl eq_refl) as [_ E].
  exact E.
Defined.


(** ** The log of the loop, event by event *)

Lemma detections_pass model fc n frame out r :
  model frame = inr r ->
  detections model (pass_events fc n frame out) = boxes r.
Proof.
  intros Em. unfold pass_events. rewrite detections_app, detections_progress.
  simpl. rewrite Em. now rewrite !app_nil_r.
Qed.

Lemma LoopRun_exact env model fc W H stream w res w' :
  LoopRun env model fc W H stream w (res, w') ->
  exists pairs t,
    log w' = log w ++ passes_events fc (i w) pairs ++ t
    /\ i w' = i w + Z.of_nat (length pairs)
    /\ Forall (fun p => written_for env model W H p.1 p.2) pairs
    /\ loop_tail res t
    /\ shot_counter w'
       = fold_left count_shot
           (detections model (passes_events fc (i w) pairs ++ t))
           (shot_counter w).
Proof.
  intros L. remember (res, w') as out eqn:E. revert res w' E.
  induction L as [w|rest w|frame rest w e w1 S|frame rest w w1 out S L IH];
    intros res w' E; inversion E; subst.
  - exists [], [cap_read None]. simpl. repeat split; auto. lia.
  - exists [], [cap_read None]. simpl. repeat split; auto. lia.
  - exists [], [cap_read (Some frame); model_predict frame].
    inversion S as [msg Em|r e' Em En|r a msg Em En Ew|]; subst; simpl;
      rewrite ?Em, ?app_nil_r, <- ?app_assoc; simpl;
      repeat split; eauto; lia.
  - destruct (IH res w' eq_refl) as (pairs & t & El & Ei & Fw & Ht & Ec).
    inversion S as [| | |r a Em En Ew Ev]; subst. simpl in *.
    exists ((frame, cv2.cvtColor_RGB2BGR a) :: pairs), t.
    split; [|split; [|split; [|split]]].
    + rewrite El. simpl. unfold pass_events.
      repeat (rewrite <- app_assoc; simpl). reflexivity.
    + rewrite Ei. simpl length. lia.
    + constructor; [|exact Fw]. exists r, a. auto.
    + exact Ht.
    + rewrite Ec.
      change (passes_events fc (i w)
                ((frame, cv2.cvtColor_RGB2BGR a) :: pairs))
        with (pass_events fc (i w + 1) frame (cv2.cvtColor_RGB2BGR a)
              ++ passes_events fc (i w + 1) pairs).
      rewrite <- app_assoc, (detections_app model (pass_events _ _ _ _)).
      rewrite (detections_pass model fc (i w + 1) frame _ r Em).
      now rewrite fold_left_app.
Qed.

(** The log of a run that got as far as the loop. *)
Lemma run_started_exact (env : Env) (model : Detector) (up : UploadedFile) :
  YOLO env MODEL_PATH = inr model ->
  uploaded_file env = Some up ->
  cv2.isOpened (VideoCapture env (video_path env up)) = true ->
  let cap := VideoCapture env (video_path env up) in
  exists pairs t,
    loop_tail (run env).1 t
    /\ Forall (fun p => written_for env model (width cap) (height cap)
                          p.1 p.2) pairs
    /\ i (run env).2 = Z.of_nat (length pairs)
    /\ shot_counter (run env).2
       = fold_left count_shot
           (detections model (passes_events (frame_count cap) 0 pairs ++ t))
           Counter.empty
    /\ log (run env).2
       = prelude env up ++ passes_events (frame_count cap) 0 pairs ++ t
         ++ match (run env).1 with
            | Val _ => epilogue env up (shot_counter (run env).2)
            | _ => []
            end.
Proof.
  intros Hy Hu Ho cap0. pose proof (run_shape env) as R.
  inversion R as [e Hy' E|m Hy' Hu' E|m up' Hy' Hu' Ho' E
                 |m up' e w Hy' Hu' cap Ho' L E
                 |m up' w Hy' Hu' cap Ho' L E]; try congruence;
    assert (up' = up) by congruence; subst up';
    assert (m = model) by congruence; subst m;
    destruct (LoopRun_exact _ _ _ _ _ _ _ _ _ L)
      as (pairs & t & El & Ei & Fw & Ht & Ec);
    exists pairs, t; simpl in *.
  - repeat split; auto. rewrite El, app_nil_r. reflexivity.
  - repeat split; auto. rewrite El. simpl.
    now rewrite <- !app_assoc.
Qed.

Lemma run_not_started_state (env : Env) :
  ~ started env ->
  shot_counter (run env).2 = Counter.empty /\ i (run env).2 = 0.
Proof.
  intros N. pose proof (run_shape env) as R.
  inversion R as [e Hy E|m Hy Hu E|m up Hy Hu Ho E
                 |m up e w Hy Hu cap Ho L E
                 |m up w Hy Hu cap Ho L E]; simpl;
    try (exfalso; apply N; exists m, up; tauto); auto.
Qed.

Lemma omap_all_none {A B} (f : A -> option B) (l : list A) :
  Forall (fun x => f x = None) l -> omap f l = [].
Proof.
  induction 1 as [|x l Hx _ IH]; [reflexivity|].
  simpl. now rewrite Hx.
Qed.

(** An observer that looks at frame events only sees nothing outside the
    loop; one that looks at events after the loop sees nothing before. *)
Lemma omap_no_frame_events {B} (f : Event -> option B) (l : list Event) :
  (forall e, is_frame_event e = false -> f e = None) ->
  Forall (fun e => is_frame_event e = false) l -> omap f l = [].
Proof.
  intros Hf F. apply omap_all_none.
  eapply Forall_impl; [exact F|]. auto.
Qed.

Lemma epilogue_not_frame env up c :
  Forall (fun e => is_frame_event e = false) (epilogue env up c).
Proof.
  eapply Forall_impl; [apply epilogue_events|].
  intros [] E; simpl in *; try reflexivity; discriminate.
Qed.

Lemma prelude_not_frame env up :
  Forall (fun e => is_frame_event e = false) (prelude env up).
Proof. repeat constructor. Qed.

Lemma after_loop_not_frame env up (res : Res unit) c :
  Forall (fun e => is_frame_event e = false)
    match res with Val _ => epilogue env up c | _ => [] end.
Proof. destruct res; auto using epilogue_not_frame. Qed.

Lemma omap_passes {B} (f : Event -> option B) (g : Z -> ndarray * ndarray -> list B)
    (fc n : Z) (pairs : list (ndarray * ndarray)) :
  (forall k p, omap f (pass_events fc k p.1 p.2) = g k p) ->
  omap f (passes_events fc n pairs)
  = concat (zip_with g (seqZ (n + 1) (Z.of_nat (length pairs))) pairs).
Proof.
  intros Hg. revert n. induction pairs as [|p ps IH]; intros n.
  - reflexivity.
  - change (passes_events fc n (p :: ps))
      with (pass_events fc (n + 1) p.1 p.2 ++ passes_events fc (n + 1) ps).
    rewrite omap_app, Hg, IH.
    rewrite (seqZ_cons (n + 1)) by (simpl length; lia).
    replace (Z.pred (Z.of_nat (length (p :: ps))))
      with (Z.of_nat (length ps)) by (simpl length; lia).
    replace (Z.succ (n + 1)) with (n + 1 + 1) by lia. reflexivity.
Qed.

Lemma concat_zip_with_singleton {A B C} (h : A -> B -> C) (xs : list A)
    (ys : list B) :
  concat (zip_with (fun x y => [h x y]) xs ys) = zip_with h xs ys.
Proof.
  revert ys. induction xs as [|x xs IH]; intros [|y ys]; simpl; auto.
  now rewrite IH.
Qed.

Lemma concat_zip_with_nil {A B C} (xs : list A) (ys : list B) :
  concat (zip_with (fun _ _ => @nil C) xs ys) = [].
Proof.
  revert ys. induction xs as [|x xs IH]; intros [|y ys]; simpl; auto.
Qed.

Lemma zip_with_seqZ_snd {B C} (h : B -> C) (m : Z) (ys : list B) :
  zip_with (fun (_ : Z) y => h y) (seqZ m (Z.of_nat (length ys))) ys
  = map h ys.
Proof.
  revert m. induction ys as [|y ys IH]; intros m; [reflexivity|].
  rewrite seqZ_cons by (simpl length; lia). simpl.
  replace (Z.pred (Z.of_nat (S (length ys)))) with (Z.of_nat (length ys))
    by lia.
  now rewrite IH.
Qed.

Lemma zip_with_seqZ_fst {B C} (h : Z -> C) (m : Z) (ys : list B) :
  zip_with (fun k (_ : B) => h k) (seqZ m (Z.of_nat (length ys))) ys
  = map h (seqZ m (Z.of_nat (length ys))).
Proof.
  revert m. induction ys as [|y ys IH]; intros m; [reflexivity|].
  rewrite seqZ_cons by (simpl length; lia). simpl.
  replace (Z.pred (Z.of_nat (S (length ys)))) with (Z.of_nat (length ys))
    by lia.
  now rewrite IH.
Qed.

Lemma frames_read_passes fc n pairs :
  frames_read (passes_events fc n pairs) = map fst pairs.
Proof.
  unfold frames_read.
  rewrite (omap_passes _ (fun _ p => [p.1])).
  - now rewrite concat_zip_with_singleton, zip_with_seqZ_snd.
  - intros k p. unfold pass_events. rewrite omap_app. simpl.
    unfold progress_events. now destruct (decide (fc > 0)).
Qed.

Lemma frames_predicted_passes fc n pairs :
  frames_predicted (passes_events fc n pairs) = map fst pairs.
Proof.
  unfold frames_predicted.
  rewrite (omap_passes _ (fun _ p => [p.1])).
  - now rewrite concat_zip_with_singleton, zip_with_seqZ_snd.
  - intros k p. unfold pass_events. rewrite omap_app. simpl.
    unfold progress_events. now destruct (decide (fc > 0)).
Qed.

Lemma frames_written_passes fc n pairs :
  frames_written (passes_events fc n pairs) = map snd pairs.
Proof.
  unfold frames_written.
  rewrite (omap_passes _ (fun _ p => [p.2])).
  - now rewrite concat_zip_with_singleton, zip_with_seqZ_snd.
  - intros k p. unfold pass_events. rewrite omap_app. simpl.
    unfold progress_events. now destruct (decide (fc > 0)).
Qed.

Lemma status_texts_passes fc n pairs :
  status_texts (passes_events fc n pairs)
  = if decide (fc > 0)
    then map (status_line fc) (seqZ (n + 1) (Z.of_nat (length pairs)))
    else [].
Proof.
  unfold status_texts. destruct (decide (fc > 0)) as [Hfc|Hfc].
  - rewrite (omap_passes _ (fun k _ => [status_line fc k])).
    + now rewrite concat_zip_with_singleton, zip_with_seqZ_fst.
    + intros k p. unfold pass_events. rewrite omap_app. simpl.
      unfold progress_events. now destruct (decide (fc > 0)).
  - rewrite (omap_passes _ (fun _ _ => [])).
    + apply concat_zip_with_nil.
    + intros k p. unfold pass_events. rewrite omap_app. simpl.
      unfold progress_events. now destruct (decide (fc > 0)).
Qed.


(** What an observer of frame events sees of a whole run. *)
Lemma run_loop_view (env : Env) :
  (~ started env
   /\ i (run env).2 = 0
   /\ (run env).1 = Stop
   /\ forall B (f : Event -> option B),
       (forall e, is_frame_event e = false -> f e = None) ->
       omap f (log (run env).2) = [])
  \/ exists model up pairs t,
       YOLO env MODEL_PATH = inr model
       /\ uploaded_file env = Some up
       /\ cv2.isOpened (VideoCapture env (video_path env up)) = true
       /\ loop_tail (run env).1 t
       /\ Forall (fun p =>
                    written_for env model
                      (width (VideoCapture env (video_path env up)))
                      (height (VideoCapture env (video_path env up)))
                      p.1 p.2) pairs
       /\ i (run env).2 = Z.of_nat (length pairs)
       /\ forall B (f : Event -> option B),
           (forall e, is_frame_event e = false -> f e = None) ->
           omap f (log (run env).2)
           = omap f (passes_events
                       (frame_count (VideoCapture env (video_path env up)))
                       0 pairs)
             ++ omap f t.
Proof.
  destruct (started_dec env) as [(model & up & Hy & Hu & Ho)|N].
  - right.
    destruct (run_started_exact env model up Hy Hu Ho)
      as (pairs & t & Ht & Fw & Ei & _ & El).
    exists model, up, pairs, t. repeat split; auto.
    intros B f Hf. rewrite El, !omap_app.
    rewrite (omap_no_frame_events f _ Hf (prelude_not_frame env up)).
    rewrite (omap_no_frame_events f _ Hf (after_loop_not_frame env up _ _)).
    now rewrite app_nil_r.
  - left. destruct (run_not_started env N) as [Es F].
    destruct (run_not_started_state env N) as [_ Ei].
    repeat split; auto. intros B f Hf.
    apply (omap_no_frame_events f _ Hf).
    eapply Forall_impl; [exact F|]. now intros e [? _].
Qed.

(** X3: every frame read is handed to the detector, once and in the order
    read, in every run. *)
Theorem detector_sees_every_frame_read (env : Env) :
  frames_predicted (log (run env).2) = frames_read (log (run env).2).
Proof.
  unfold frames_predicted, frames_read.
  destruct (run_loop_view env)
    as [(_ & _ & _ & Hn)
       |(model & up & pairs & t & _ & _ & _ & Ht & _ & _ & Hv)].
  - rewrite !Hn; [reflexivity| |]; now intros [].
  - rewrite !Hv by now intros [].
    fold (frames_predicted (passes_events
            (frame_count (VideoCapture env (video_path env up))) 0 pairs)).
    fold (frames_read (passes_events
            (frame_count (VideoCapture env (video_path env up))) 0 pairs)).
    rewrite frames_predicted_passes, frames_read_passes. f_equal.
    destruct (run env).1 as [[]| |e]; simpl in Ht.
    + now subst t.
    + contradiction.
    + destruct Ht as [f ->]. reflexivity.
Qed.

(** X4: when a call in the loop body raises, every frame read before the one
    being processed has been written, in order, and exactly that one frame
    has been read and not written. *)
Theorem abort_loses_one_frame (env : Env) (e : Exn) :
  (run env).1 = Raise e ->
  exists model up pairs f,
    YOLO env MODEL_PATH = inr model
    /\ uploaded_file env = Some up
    /\ frames_read (log (run env).2) = map fst pairs ++ [f]
    /\ frames_written (log (run env).2) = map snd pairs
    /\ length (frames_read (log (run env).2))
       = S (length (frames_written (log (run env).2)))
    /\ Forall (fun p =>
                 written_for env model
                   (width (VideoCapture env (video_path env up)))
                   (height (VideoCapture env (video_path env up)))
                   p.1 p.2) pairs.
Proof.
  intros Er.
  destruct (run_loop_view env)
    as [(_ & _ & Es & _)
       |(model & up & pairs & t & Hy & Hu & _ & Ht & Fw & _ & Hv)];
    [congruence|].
  rewrite Er in Ht. destruct Ht as [f ->].
  exists model, up, pairs, f. unfold frames_read, frames_written.
  rewrite !Hv by now intros [| | | | | | | | | | | | |[]| | | | |].
  fold (frames_read (passes_events
          (frame_count (VideoCapture env (video_path env up))) 0 pairs)).
  fold (frames_written (passes_events
          (frame_count (VideoCapture env (video_path env up))) 0 pairs)).
  rewrite frames_read_passes, frames_written_passes. simpl.
  rewrite app_nil_r, length_app, !length_map. simpl.
  repeat split; auto. lia.
Qed.

Lemma abort_loses_one_frame_witness :
  length (frames_read (log (run Examples.env_raises).2))
  = S (length (frames_written (log (run Examples.env_raises).2))).
Proof.
  destruct (abort_loses_one_frame Examples.env_raises
              (LibraryError "inference failed") eq_refl)
    as (model & up & pairs & f & _ & _ & _ & _ & Hlen & _).
  exact Hlen.
Defined.

(** X5: at the end of every run, [i] is the number of frames handed to the
    writer. *)
Theorem counter_i_counts_written_frames (env : Env) :
  i (run env).2 = Z.of_nat (length (frames_written (log (run env).2))).
Proof.
  unfold frames_written.
  destruct (run_loop_view env)
    as [(_ & Ei & _ & Hn)
       |(model & up & pairs & t & _ & _ & _ & Ht & _ & Ei & Hv)].
  - rewrite Hn by now intros []. exact Ei.
  - rewrite Hv by now intros [].
    fold (frames_written (passes_events
            (frame_count (VideoCapture env (video_path env up))) 0 pairs)).
    rewrite frames_written_passes, length_app, length_map, Ei.
    destruct (run env).1 as [[]| |e]; simpl in Ht.
    + subst t. simpl. lia.
    + contradiction.
    + destruct Ht as [f ->]. simpl. lia.
Qed.

(** X6: with a positive reported frame count [fc], the status texts of a run
    are "Processed frame k/fc" for k = 1, 2, ..., one per frame written and
    in this order; with no positive count there are none. *)
Theorem status_texts_count_up (env : Env) (up : UploadedFile) :
  uploaded_file env = Some up ->
  let fc := frame_count (VideoCapture env (video_path env up)) in
  status_texts (log (run env).2)
  = if decide (fc > 0)
    then map (fun k => "Processed frame " +:+ pretty k +:+ "/" +:+ pretty fc)
           (seqZ 1 (Z.of_nat (length (frames_written (log (run env).2)))))
    else [].
Proof.
  intros Hu. cbv zeta. unfold status_texts, frames_written.
  destruct (run_loop_view env)
    as [(_ & _ & _ & Hn)
       |(model & up' & pairs & t & _ & Hu' & _ & Ht & _ & _ & Hv)].
  - rewrite !Hn; [|now intros []|now intros []].
    now destruct (decide (_ > 0)).
  - assert (up' = up) by congruence. subst up'.
    rewrite !Hv; [|now intros []|now intros []].
    fold (status_texts (passes_events
            (frame_count (VideoCapture env (video_path env up))) 0 pairs)).
    fold (frames_written (passes_events
            (frame_count (VideoCapture env (video_path env up))) 0 pairs)).
    rewrite status_texts_passes, frames_written_passes.
    assert (Et : omap (fun e => match e with
                                | status_text_text m => Some m
                                | _ => None
                                end) t = []
                 /\ omap (fun e => match e with
                                   | writer_write f => Some f
                                   | _ => None
                                   end) t = []).
    { destruct (run env).1 as [[]| |e]; simpl in Ht.
      - now subst t.
      - contradiction.
      - destruct Ht as [f ->]. now split. }
    destruct Et as [-> ->]. rewrite !app_nil_r, length_map.
    destruct (decide (_ > 0)); reflexivity.
Qed.

Lemma status_texts_count_up_witness :
  status_texts (log (run Examples.env_ok).2)
  = ["Processed frame 1/3"; "Processed frame 2/3"].
Proof.
  rewrite (status_texts_count_up Examples.env_ok
             {| name := "rally.mp4"; content := [] |} eq_refl).
  reflexivity.
Defined.




(** ** The tally, label by label *)

Lemma class_map_lookup (k : Z) :
  class_map !! k
  = if decide (k = 0) then Some "Forehand"
    else if decide (k = 1) then Some "Backhand"
    else if decide (k = 2) then Some "Serve"
    else None.
Proof.
  unfold class_map.
  destruct (decide (k = 0)) as [->|N0]; [reflexivity|].
  rewrite lookup_insert_ne by congruence.
  destruct (decide (k = 1)) as [->|N1]; [reflexivity|].
  rewrite lookup_insert_ne by congruence.
  destruct (decide (k = 2)) as [->|N2]; [reflexivity|].
  now rewrite lookup_singleton_ne by congruence.
Qed.

Lemma class_map_label (k : Z) (label : string) :
  class_map !! k = Some label ->
  In label ["Forehand"; "Backhand"; "Serve"]
  /\ forall k', class_map !! k' = Some label <-> k' = k.
Proof.
  rewrite class_map_lookup. intros E.
  repeat destruct (decide _); inversion E; subst; (split; [simpl; tauto|]);
    intros k'; rewrite class_map_lookup;
    repeat destruct (decide _); split; intros; try lia; try congruence.
Qed.

Lemma Counter_get_set (c : Counter.t) (k k' : string) (v : Z) :
  Counter.get (Counter.set c k v) k'
  = if decide (k' = k) then v else Counter.get c k'.
Proof.
  induction c as [|[k0 v0] rest IH]; simpl.
  - destruct (decide (k' = k)); reflexivity.
  - destruct (decide (k = k0)) as [->|N]; simpl.
    + destruct (decide (k' = k0)); reflexivity.
    + destruct (decide (k' = k0)) as [->|N'].
      * destruct (decide (k0 = k)); [congruence|reflexivity].
      * exact IH.
Qed.

Lemma Counter_get_incr (c : Counter.t) (k k' : string) :
  Counter.get (Counter.incr c k) k'
  = Counter.get c k' + (if decide (k' = k) then 1 else 0).
Proof.
  unfold Counter.incr. rewrite Counter_get_set.
  destruct (decide (k' = k)) as [->|N]; lia.
Qed.

Lemma Counter_keys_set (c : Counter.t) (k : string) (v : Z) :
  map fst (Counter.set c k v)
  = if decide (k ∈ map fst c) then map fst c else map fst c ++ [k].
Proof.
  induction c as [|[k0 v0] rest IH]; simpl.
  - destruct (decide (k ∈ [])) as [H|_]; [|reflexivity].
    now apply elem_of_nil in H.
  - destruct (decide (k = k0)) as [->|N]; simpl.
    + destruct (decide (k0 ∈ k0 :: map fst rest)) as [_|H]; [reflexivity|].
      exfalso. apply H. now left.
    + rewrite IH.
      destruct (decide (k ∈ map fst rest)) as [H|H];
        destruct (decide (k ∈ k0 :: map fst rest)) as [H'|H']; auto.
      * exfalso. apply H'. now right.
      * apply elem_of_cons in H' as [?|?]; [congruence|contradiction].
Qed.

Lemma Counter_get_absent (c : Counter.t) (k : string) :
  k ∉ map fst c -> Counter.get c k = 0.
Proof.
  induction c as [|[k0 v0] rest IH]; simpl; [reflexivity|].
  intros H. destruct (decide (k = k0)) as [->|N].
  - exfalso. apply H. now left.
  - apply IH. intros H'. apply H. now right.
Qed.

Lemma Counter_get_present (c : Counter.t) (k : string) :
  k ∈ map fst c -> In (k, Counter.get c k) c.
Proof.
  induction c as [|[k0 v0] rest IH]; simpl.
  - intros H. now apply elem_of_nil in H.
  - intros H. destruct (decide (k = k0)) as [->|N]; [now left|].
    right. apply IH. apply elem_of_cons in H as [?|?]; [congruence|auto].
Qed.

Lemma count_class_app k bs bs' :
  count_class k (bs ++ bs') = count_class k bs + count_class k bs'.
Proof. unfold count_class. rewrite filter_app, length_app. lia. Qed.

Lemma count_shot_get (c : Counter.t) (b : Box) (k : Z) (label : string) :
  class_map !! k = Some label ->
  Counter.get (count_shot c b) label
  = Counter.get c label + (if decide (class_id b = k) then 1 else 0).
Proof.
  intros Hk. destruct (class_map_label k label Hk) as [_ Hinj].
  unfold count_shot.
  destruct (class_map !! class_id b) as [l|] eqn:E.
  - rewrite Counter_get_incr.
    destruct (decide (label = l)) as [->|N].
    + apply Hinj in E. destruct (decide (class_id b = k)); [lia|contradiction].
    + destruct (decide (class_id b = k)) as [Ek|_]; [|lia].
      rewrite Ek in E. congruence.
  - destruct (decide (class_id b = k)) as [Ek|_]; [|lia].
    rewrite Ek in E. congruence.
Qed.

Lemma count_shots_get (bs : list Box) (c : Counter.t) (k : Z)
    (label : string) :
  class_map !! k = Some label ->
  Counter.get (fold_left count_shot bs c) label
  = Counter.get c label + count_class k bs.
Proof.
  intros Hk. revert c. induction bs as [|b bs IH]; intros c; simpl.
  - unfold count_class. simpl. lia.
  - rewrite IH, (count_shot_get c b k label Hk).
    change (b :: bs) with ([b] ++ bs). rewrite count_class_app.
    unfold count_class at 2. rewrite filter_cons, filter_nil.
    destruct (decide (class_id b = k)); simpl; lia.
Qed.

Lemma detections_after_loop env up model (res : Res unit) c :
  detections model match res with Val _ => epilogue env up c | _ => [] end
  = [].
Proof.
  apply detections_none. destruct res; auto using epilogue_no_predict.
Qed.

(** The tally at the end of a run is the fold of the counting step over the
    detections the log shows. *)
Lemma run_tally_exact (env : Env) (model : Detector) :
  YOLO env MODEL_PATH = inr model ->
  shot_counter (run env).2
  = fold_left count_shot (detections model (log (run env).2)) Counter.empty.
Proof.
  intros Hy.
  destruct (started_dec env) as [(m & up & Hy' & Hu & Ho)|N].
  - assert (m = model) by congruence. subst m.
    destruct (run_started_exact env model up Hy Hu Ho)
      as (pairs & t & _ & _ & _ & Ec & El).
    rewrite El, !detections_app.
    rewrite (detections_none model (prelude env up)) by repeat constructor.
    rewrite detections_after_loop, app_nil_r. simpl.
    rewrite <- detections_app. exact Ec.
  - destruct (run_not_started env N) as [_ F].
    destruct (run_not_started_state env N) as [-> _].
    rewrite detections_none; [reflexivity|].
    eapply Forall_impl; [exact F|].
    intros [] [E _]; simpl in *; try exact I; discriminate.
Qed.

Lemma run_tally_is_fold (env : Env) :
  exists bs, shot_counter (run env).2 = fold_left count_shot bs Counter.empty.
Proof.
  destruct (YOLO env MODEL_PATH) as [e|model] eqn:Hy.
  - exists []. apply run_not_started_state.
    intros (m & up & H & _). congruence.
  - exists (detections model (log (run env).2)).
    exact (run_tally_exact env model Hy).
Qed.

(** X8: at the end of every run the count shown for a label is the number of
    detections with that label's class id among all detections of the frames
    the detector returned results for. *)
Theorem tally_counts_each_class (env : Env) (model : Detector) (k : Z)
    (label : string) :
  YOLO env MODEL_PATH = inr model ->
  class_map !! k = Some label ->
  Counter.get (shot_counter (run env).2) label
  = count_class k (detections model (log (run env).2)).
Proof.
  intros Hy Hk. rewrite (run_tally_exact env model Hy).
  now rewrite (count_shots_get _ _ k label Hk).
Qed.

Lemma tally_counts_each_class_witness :
  Counter.get (shot_counter (run Examples.env_ok).2) "Backhand" = 2.
Proof.
  rewrite (tally_counts_each_class Examples.env_ok Examples.float_model 1
             "Backhand" eq_refl eq_refl).
  reflexivity.
Defined.

Lemma Counter_set_Forall (P : string * Z -> Prop) (c : Counter.t)
    (k : string) (v : Z) :
  Forall P c -> P (k, v) -> Forall P (Counter.set c k v).
Proof.
  intros Hc Hk. induction Hc as [|[k0 v0] rest H0 Hrest IH]; simpl.
  - repeat constructor. exact Hk.
  - destruct (decide (k = k0)) as [->|N]; constructor; auto.
Qed.

Lemma tally_wf_nonneg (c : Counter.t) : tally_wf c -> counts_nonneg c.
Proof.
  intros [_ F]. unfold counts_nonneg, Counter.items.
  eapply Forall_impl; [exact F|]. intros kv [_ H]. lia.
Qed.

Lemma count_shot_wf (c : Counter.t) (b : Box) :
  tally_wf c -> tally_wf (count_shot c b).
Proof.
  intros W. pose proof (tally_wf_nonneg c W) as Hn. destruct W as [Hd F].
  unfold count_shot.
  destruct (class_map !! class_id b) as [l|] eqn:E; [|now split].
  destruct (class_map_label _ _ E) as [Hl _].
  unfold Counter.incr. split.
  - rewrite Counter_keys_set.
    destruct (decide (l ∈ map fst c)) as [Hin|Hin]; [exact Hd|].
    apply NoDup_app. split; [exact Hd|]. split; [|apply NoDup_singleton].
    intros x Hx Hx'. apply list_elem_of_singleton in Hx'. now subst.
  - apply Counter_set_Forall; [exact F|]. split; [exact Hl|].
    pose proof (Counter_get_nonneg c l Hn). simpl. lia.
Qed.

Lemma count_shots_wf (bs : list Box) (c : Counter.t) :
  tally_wf c -> tally_wf (fold_left count_shot bs c).
Proof.
  revert c. induction bs as [|b bs IH]; intros c W; simpl; [exact W|].
  apply IH. now apply count_shot_wf.
Qed.

Lemma tally_wf_empty : tally_wf Counter.empty.
Proof. split; constructor. Qed.

(** X9: at the end of every run the tally has at most three entries, with
    distinct labels out of Forehand, Backhand and Serve, each with a count of
    at least 1: a label that was never detected is not listed. *)
Theorem tally_entries_are_known_and_positive (env : Env) :
  NoDup (map fst (Counter.items (shot_counter (run env).2)))
  /\ Forall (fun kv : string * Z =>
               In kv.1 ["Forehand"; "Backhand"; "Serve"] /\ 1 <= kv.2)
       (Counter.items (shot_counter (run env).2))
  /\ (length (Counter.items (shot_counter (run env).2)) <= 3)%nat.
Proof.
  destruct (run_tally_is_fold env) as [bs ->].
  destruct (count_shots_wf bs _ tally_wf_empty) as [Hd F].
  unfold Counter.items. split; [exact Hd|]. split; [exact F|].
  rewrite <- (length_map fst).
  change 3%nat with (length ["Forehand"; "Backhand"; "Serve"]).
  apply submseteq_length, NoDup_submseteq; [exact Hd|].
  intros x Hx. apply list_elem_of_fmap in Hx as ([k v] & -> & Hin).
  rewrite List.Forall_forall in F. apply list_elem_of_In in Hin.
  apply F in Hin as [Hl _]. now apply list_elem_of_In.
Qed.

Lemma count_shots_keys (bs : list Box) (c : Counter.t) :
  map fst (fold_left count_shot bs c)
  = map fst c ++ first_seen (map fst c) (omap label_of bs).
Proof.
  revert c. induction bs as [|b bs IH]; intros c; simpl.
  - now rewrite app_nil_r.
  - rewrite IH. unfold count_shot, label_of.
    destruct (class_map !! class_id b) as [l|]; simpl; [|reflexivity].
    unfold Counter.incr. rewrite Counter_keys_set.
    destruct (decide (l ∈ map fst c)); [reflexivity|].
    now rewrite <- app_assoc.
Qed.

(** X10: the entries of the tally are in the order in which their labels were
    first detected. *)
Theorem tally_in_first_seen_order (env : Env) (model : Detector) :
  YOLO env MODEL_PATH = inr model ->
  map fst (Counter.items (shot_counter (run env).2))
  = first_seen [] (omap label_of (detections model (log (run env).2))).
Proof.
  intros Hy. rewrite (run_tally_exact env model Hy).
  unfold Counter.items. now rewrite count_shots_keys.
Qed.

Lemma tally_in_first_seen_order_witness :
  map fst (Counter.items (shot_counter (run Examples.env_ok).2))
  = ["Forehand"; "Backhand"].
Proof.
  rewrite (tally_in_first_seen_order Examples.env_ok Examples.float_model
             eq_refl).
  reflexivity.
Defined.

(** ** What is shown after the loop *)

Lemma omap_map {A B C} (f : B -> option C) (g : A -> B) (h : A -> C)
    (l : list A) :
  (forall x, f (g x) = Some (h x)) -> omap f (map g l) = map h l.
Proof.
  intros E. induction l as [|x l IH]; [reflexivity|].
  change (omap f (map g (x :: l)))
    with (match f (g x) with
          | Some y => y :: omap f (map g l)
          | None => omap f (map g l)
          end).
  rewrite E, IH. reflexivity.
Qed.

Lemma markdowns_results (c : Counter.t) :
  markdowns (results_events c)
  = if Counter.truthy c then map result_line (Counter.items c)
    else ["No shots detected. Try uploading a clearer video."].
Proof.
  unfold markdowns, results_events.
  destruct (Counter.truthy c); [|reflexivity].
  transitivity
    (omap (fun e =>
             match e with
             | st_markdown m => Some m
             | st_tip t => Some (tip_block t)
             | _ => None
             end)
       (map (fun kv => st_markdown (result_line kv)) (Counter.items c)));
    [reflexivity|].
  now apply omap_map.
Qed.

Lemma markdowns_download (env : Env) (up : UploadedFile) :
  markdowns (download_events env up)
  = match disk_at_end env !! out_path env with
    | Some (_ :: _) => ["<br><br>"]
    | _ => []
    end.
Proof.
  unfold download_events.
  destruct (disk_at_end env !! out_path env) as [[|x data]|]; reflexivity.
Qed.

Lemma markdowns_epilogue (env : Env) (up : UploadedFile) (c : Counter.t) :
  markdowns (epilogue env up c)
  = markdowns (results_events c)
    ++ [tip_block (random_choice env feedback_tips)]
    ++ markdowns (download_events env up).
Proof. unfold markdowns, epilogue. rewrite !omap_app. reflexivity. Qed.

Lemma tally_empty_iff (bs : list Box) :
  Counter.truthy (fold_left count_shot bs Counter.empty) = false
  <-> in_scope_count bs = 0.
Proof.
  pose proof (count_shots_total bs Counter.empty) as Ht.
  pose proof (count_shots_wf bs _ tally_wf_empty) as W.
  destruct (fold_left count_shot bs Counter.empty) as [|[k v] rest].
  - simpl in *. split; [intros _; lia|reflexivity].
  - pose proof (tally_wf_nonneg _ W) as Hn. destruct W as [_ F].
    inversion F as [|? ? [_ Hv] Frest]; subst.
    inversion Hn as [|? ? _ Hrest]; subst.
    assert (0 <= Counter.total rest).
    { clear -Hrest. unfold Counter.items in Hrest.
      induction Hrest as [|[k' v'] r Hv' _ IH]; simpl in *; lia. }
    simpl in *. split; [discriminate|].
    unfold Counter.total in *. simpl in Ht. lia.
Qed.

(** The log of a run that ends normally, seen by an observer of what is
    shown after the loop. *)
Lemma run_finished_view (env : Env) :
  (run env).1 = Val tt ->
  exists model up,
    YOLO env MODEL_PATH = inr model
    /\ uploaded_file env = Some up
    /\ cv2.isOpened (VideoCapture env (video_path env up)) = true
    /\ forall B (f : Event -> option B),
        (forall e, is_epilogue_event e = false -> f e = None) ->
        f (st_subheader "⏳ Processing your video") = None ->
        omap f (log (run env).2)
        = omap f (epilogue env up (shot_counter (run env).2)).
Proof.
  intros Hv.
  destruct (started_dec env) as [(model & up & Hy & Hu & Ho)|N].
  2:{ destruct (run_not_started env N) as [Es _]. congruence. }
  exists model, up. repeat split; auto. intros B f Hf Hs.
  destruct (run_log_started env model up Hy Hu Ho) as (l & Fl & S).
  destruct S as [(msg & Er & _)|(_ & El)]; [congruence|].
  rewrite El, !omap_app.
  assert (Ep : omap f (prelude env up) = []).
  { simpl. rewrite Hs. rewrite !Hf by reflexivity. reflexivity. }
  assert (Elp : omap f l = []).
  { apply omap_all_none. eapply Forall_impl; [exact Fl|].
    intros e He. apply Hf. destruct e; simpl in *; auto; discriminate. }
  now rewrite Ep, Elp.
Qed.

(** X11: in a run that ends normally the texts passed to [st.markdown] from
    the results on are: the no-shots message when no detection had a class
    id in {0,1,2}, and otherwise one line per entry of the tally, in the
    tally's order; then the block with the coaching tip; then a line break
    when the output file exists and is not empty. *)
Theorem results_lines_shown (env : Env) (model : Detector) :
  (run env).1 = Val tt ->
  YOLO env MODEL_PATH = inr model ->
  markdowns (log (run env).2)
  = (if decide (in_scope_count (detections model (log (run env).2)) = 0)
     then ["No shots detected. Try uploading a clearer video."]
     else map (fun kv : string * Z =>
                 "- **" +:+ kv.1 +:+ ":** " +:+ pretty kv.2)
            (Counter.items (shot_counter (run env).2)))
    ++ [tip_block (random_choice env feedback_tips)]
    ++ match disk_at_end env !! out_path env with
       | Some (_ :: _) => ["<br><br>"]
       | _ => []
       end.
Proof.
  intros Hv Hy.
  destruct (run_finished_view env Hv) as (m & up & _ & _ & _ & Hf).
  unfold markdowns at 1. rewrite Hf; [|now intros []|reflexivity].
  fold (markdowns (epilogue env up (shot_counter (run env).2))).
  rewrite markdowns_epilogue, markdowns_results, markdowns_download. f_equal.
  pose proof (tally_empty_iff (detections model (log (run env).2))) as T.
  rewrite <- (run_tally_exact env model Hy) in T.
  destruct (Counter.truthy (shot_counter (run env).2));
    destruct (decide (in_scope_count (detections model (log (run env).2)) = 0))
      as [E|E]; try reflexivity.
  - apply T in E. discriminate.
  - exfalso. apply E. now apply T.
Qed.

Lemma results_lines_shown_witness :
  markdowns (log (run Examples.env_ok).2)
  = ["- **Forehand:** 2"; "- **Backhand:** 2";
     tip_block
       "Add more topspin by brushing up the back of the ball on forehands and backhands.";
     "<br><br>"].
Proof.
  rewrite (results_lines_shown Examples.env_ok Examples.float_model
             eq_refl eq_refl).
  reflexivity.
Defined.

(** X12: a run that ends normally shows exactly one coaching tip, the one
    [random.choice] picks from the list of tips; a run that stops early or
    ends with an exception shows no tip, no results and no download. *)
Theorem tip_and_results_only_after_the_loop (env : Env) :
  match (run env).1 with
  | Val _ => tips (log (run env).2) = [random_choice env feedback_tips]
  | _ =>
      tips (log (run env).2) = []
      /\ markdowns (log (run env).2) = []
      /\ ~ In (st_subheader "📊 Results") (log (run env).2)
      /\ ~ download_offered (log (run env).2)
  end.
Proof.
  destruct (run env).1 as [[]| |e] eqn:Er.
  - destruct (run_finished_view env Er) as (m & up & _ & _ & _ & Hf).
    unfold tips. rewrite Hf; [|now intros []|reflexivity].
    unfold epilogue, results_events, download_events.
    rewrite !omap_app. simpl.
    rewrite (omap_all_none _ (if Counter.truthy _ then _ else _)).
    + destruct (disk_at_end env !! out_path env) as [data|]; [|reflexivity].
      now destruct (decide (Z.of_nat (length data) > 0)).
    + destruct (Counter.truthy _); [|repeat constructor].
      apply List.Forall_forall. intros ev Hin.
      apply in_map_iff in Hin as (kv & <- & _). reflexivity.
  - assert (F : Forall (fun ev => is_epilogue_event ev = false
                                  \/ ev = st_subheader
                                            "⏳ Processing your video")
                  (log (run env).2)).
    { destruct (started_dec env) as [(model & up & Hy & Hu & Ho)|N].
      - destruct (run_log_started env model up Hy Hu Ho) as (l & Fl & S).
        destruct S as [(msg & Er' & _)|(Er' & _)]; congruence.
      - destruct (run_not_started env N) as [_ F].
        eapply Forall_impl; [exact F|]. intros ev [_ H]. now left. }
    rewrite List.Forall_forall in F. repeat split.
    + apply omap_all_none, List.Forall_forall. intros ev Hin.
      destruct (F ev Hin) as [H| ->]; [|reflexivity].
      destruct ev; simpl in *; auto; discriminate.
    + apply omap_all_none, List.Forall_forall. intros ev Hin.
      destruct (F ev Hin) as [H| ->]; [|reflexivity].
      destruct ev; simpl in *; auto; discriminate.
    + intros Hin. destruct (F _ Hin) as [H|H]; discriminate.
    + intros (lb & d & fn & mi & Hin).
      destruct (F _ Hin) as [H|H]; discriminate.
  - assert (F : Forall (fun ev => is_epilogue_event ev = false
                                  \/ ev = st_subheader
                                            "⏳ Processing your video")
                  (log (run env).2)).
    { destruct (started_dec env) as [(model & up & Hy & Hu & Ho)|N].
      - destruct (run_log_started env model up Hy Hu Ho) as (l & Fl & S).
        destruct S as [(msg & Er' & El)|(Er' & _)]; [|congruence].
        rewrite El. apply Forall_app. split.
        + unfold prelude.
          repeat (constructor;
                  [first [left; reflexivity|right; reflexivity]|]).
          constructor.
        + eapply Forall_impl; [exact Fl|]. intros ev H. left.
          destruct ev; simpl in *; auto; discriminate.
      - destruct (run_not_started env N) as [Es _]. congruence. }
    rewrite List.Forall_forall in F. repeat split.
    + apply omap_all_none, List.Forall_forall. intros ev Hin.
      destruct (F ev Hin) as [H| ->]; [|reflexivity].
      destruct ev; simpl in *; auto; discriminate.
    + apply omap_all_none, List.Forall_forall. intros ev Hin.
      destruct (F ev Hin) as [H| ->]; [|reflexivity].
      destruct ev; simpl in *; auto; discriminate.
    + intros Hin. destruct (F _ Hin) as [H|H]; discriminate.
    + intros (lb & d & fn & mi & Hin).
      destruct (F _ Hin) as [H|H]; discriminate.
Qed.

Lemma tip_shown_once_or_never (env : Env) :
  tips (log (run env).2)
  = match (run env).1 with
    | Val _ => [random_choice env feedback_tips]
    | _ => []
    end.
Proof.
  destruct (run env).1 as [[]| |e] eqn:Er.
  - destruct (run_finished_view env Er) as (m & up & _ & _ & _ & Hf).
    unfold tips. rewrite Hf; [|now intros []|reflexivity].
    unfold epilogue, results_events, download_events.
    rewrite !omap_app. simpl.
    rewrite (omap_all_none _ (if Counter.truthy _ then _ else _)).
    + destruct (disk_at_end env !! out_path env) as [data|]; [|reflexivity].
      now destruct (decide (Z.of_nat (length data) > 0)).
    + destruct (Counter.truthy _); [|repeat constructor].
      apply List.Forall_forall. intros ev Hin.
      apply in_map_iff in Hin as (kv & <- & _). reflexivity.
  - apply omap_all_none.
    destruct (started_dec env) as [(model & up & Hy & Hu & Ho)|N].
    + destruct (run_log_started env model up Hy Hu Ho) as (l & Fl & S).
      destruct S as [(msg & Er' & _)|(Er' & _)]; congruence.
    + destruct (run_not_started env N) as [_ F].
      eapply Forall_impl; [exact F|]. intros ev [_ H].
      destruct ev; simpl in *; auto; discriminate.
  - apply omap_all_none.
    destruct (started_dec env) as [(model & up & Hy & Hu & Ho)|N].
    + destruct (run_log_started env model up Hy Hu Ho) as (l & Fl & S).
      destruct S as [(msg & Er' & El)|(Er' & _)]; [|congruence].
      rewrite El. apply Forall_app. split; [repeat constructor|].
      eapply Forall_impl; [exact Fl|]. intros ev H.
      destruct ev; simpl in *; auto; discriminate.
    + destruct (run_not_started env N) as [Es _]. congruence.
Qed.

(** X13: when [random.choice] returns an element of the list it is given,
    every tip shown is one of the ten tips of the script. *)
Theorem tip_is_one_of_the_tips (env : Env) :
  choice_contract env ->
  Forall (fun t => In t feedback_tips) (tips (log (run env).2)).
Proof.
  intros Hc.
  pose proof (tip_shown_once_or_never env) as T.
  destruct (run env).1 as [[]| |e].
  - rewrite T. constructor; [|constructor]. apply Hc. discriminate.
  - rewrite T. constructor.
  - rewrite T. constructor.
Qed.

Lemma hd_choice_contract (env : Env) :
  random_choice env = (fun l => hd "" l) -> choice_contract env.
Proof.
  intros E l Hl. rewrite E. destruct l; [contradiction|now left].
Qed.

Lemma tip_is_one_of_the_tips_witness :
  Forall (fun t => In t feedback_tips) (tips (log (run Examples.env_ok).2)).
Proof.
  apply (tip_is_one_of_the_tips Examples.env_ok).
  now apply hd_choice_contract.
Defined.

(** ** Paths: the upload, the capture, the writer and the download *)

(** X1: with a model but no uploaded file the page shows the upload hint and
    stops: nothing is saved, opened, read or written. *)
Theorem no_upload_stops_at_the_hint (env : Env) (model : Detector) :
  YOLO env MODEL_PATH = inr model ->
  uploaded_file env = None ->
  run env
  = (Stop,
     {| log := [load_model MODEL_PATH;
                st_info "Please upload a video to begin."];
        shot_counter := Counter.empty; i := 0 |}).
Proof.
  intros Hy Hu. pose proof (run_shape env) as R.
  inversion R as [e Hy' E|m Hy' Hu' E|m up' Hy' Hu' Ho' E
                 |m up' e w Hy' Hu' cap Ho' L E
                 |m up' w Hy' Hu' cap Ho' L E]; congruence.
Qed.

Lemma no_upload_stops_at_the_hint_witness :
  (run Examples.env_no_upload).1 = Stop.
Proof.
  now rewrite (no_upload_stops_at_the_hint Examples.env_no_upload
                 Examples.float_model eq_refl eq_refl).
Defined.

(** X2: whenever the upload is saved, it is saved with the uploaded bytes,
    and the capture is opened on the very path it was saved to and on no
    other. *)
Theorem capture_opens_the_saved_upload (env : Env) (p : string)
    (data : list Byte.byte) :
  In (temp_in_write p data) (log (run env).2) ->
  exists up,
    uploaded_file env = Some up
    /\ data = content up
    /\ p = video_path env up
    /\ forall p', In (VideoCapture_open p') (log (run env).2) <-> p' = p.
Proof.
  intros Hin. pose proof (run_shape env) as R.
  assert (Hpre : forall model up,
             YOLO env MODEL_PATH = inr model ->
             uploaded_file env = Some up ->
             cv2.isOpened (VideoCapture env (video_path env up)) = true ->
             forall ev, is_frame_event ev = false ->
                        is_epilogue_event ev = false ->
                        In ev (log (run env).2) <-> In ev (prelude env up)).
  { intros model up Hy Hu Ho ev Hf He.
    rewrite (In_run_log_outside_loop env model up ev Hy Hu Ho Hf).
    split; [|tauto]. intros [H|[_ H]]; [exact H|].
    pose proof (epilogue_events env up (shot_counter (run env).2)) as F.
    rewrite List.Forall_forall in F. apply F in H. congruence. }
  destruct (started_dec env) as [(model & up & Hy & Hu & Ho)|N].
  - exists up.
    apply (Hpre model up Hy Hu Ho (temp_in_write p data) eq_refl eq_refl)
      in Hin.
    simpl in Hin.
    destruct Hin as [H|[H|[H|[H|[H|[H|[H|[]]]]]]]]; try discriminate.
    inversion H; subst. repeat split; auto.
    + intros Hin'.
      apply (Hpre model up Hy Hu Ho (VideoCapture_open p') eq_refl eq_refl)
        in Hin'.
      simpl in Hin'.
      destruct Hin' as [H'|[H'|[H'|[H'|[H'|[H'|[H'|[]]]]]]]];
        try discriminate.
      now inversion H'.
    + intros ->.
      apply (Hpre model up Hy Hu Ho (VideoCapture_open (video_path env up))
               eq_refl eq_refl).
      simpl. tauto.
  - inversion R as [e Hy E|m Hy Hu E|m up Hy Hu Ho E
                   |m up e w Hy Hu cap Ho L E
                   |m up w Hy Hu cap Ho L E];
      try (exfalso; apply N; exists m, up; tauto);
      rewrite <- E in Hin; simpl in Hin.
    + destruct Hin as [H|[H|[]]]; discriminate.
    + destruct Hin as [H|[H|[]]]; discriminate.
    + destruct Hin as [H|[H|[H|[H|[]]]]]; try discriminate.
      inversion H; subst. exists up. repeat split; auto.
      * intros [H'|[H'|[H'|[H'|[]]]]]; try discriminate. now inversion H'.
      * intros ->. simpl. tauto.
Qed.

Lemma capture_opens_the_saved_upload_witness :
  In (VideoCapture_open "/tmp/upload.mp4") (log (run Examples.env_ok).2).
Proof.
  destruct (capture_opens_the_saved_upload Examples.env_ok
              "/tmp/upload.mp4" [])
    as (up & _ & _ & _ & H).
  - vm_compute. tauto.
  - apply H. reflexivity.
Defined.

(** X14: whenever a download is offered, its bytes are the content of the file
    at the path the writer was opened on, its name is "processed_" followed
    by the name of the upload, and its type is video/mp4. *)
Theorem download_serves_the_writers_file (env : Env) (label : string)
    (data : list Byte.byte) (file_name mime : string) :
  In (st_download_button label data file_name mime) (log (run env).2) ->
  exists up path fourcc rate size,
    uploaded_file env = Some up
    /\ file_name = "processed_" +:+ name up
    /\ mime = "video/mp4"
    /\ In (VideoWriter_open path fourcc rate size) (log (run env).2)
    /\ disk_at_end env !! path = Some data.
Proof.
  intros Hin.
  destruct (started_dec env) as [(model & up & Hy & Hu & Ho)|N].
  - apply (In_run_log_outside_loop env model up
             (st_download_button label data file_name mime) Hy Hu Ho eq_refl)
      in Hin.
    destruct Hin as [Hin|[_ Hin]].
    { simpl in Hin.
      destruct Hin as [H|[H|[H|[H|[H|[H|[H|[]]]]]]]]; discriminate. }
    apply download_button_in_epilogue in Hin. unfold download_events in Hin.
    destruct (disk_at_end env !! out_path env) as [d|] eqn:Ed; [|easy].
    destruct (decide (Z.of_nat (length d) > 0)); [|easy].
    destruct Hin as [H|[H|[]]]; [discriminate|]. inversion H; subst.
    exists up, (out_path env), "mp4v",
      (fps (VideoCapture env (video_path env up))),
      (width (VideoCapture env (video_path env up)),
       height (VideoCapture env (video_path env up))).
    repeat split; auto.
    apply (In_run_log_outside_loop env model up
             (VideoWriter_open (out_path env) "mp4v"
                (fps (VideoCapture env (video_path env up)))
                (width (VideoCapture env (video_path env up)),
                 height (VideoCapture env (video_path env up))))
             Hy Hu Ho eq_refl).
    left. simpl. tauto.
  - destruct (run_not_started env N) as [_ F].
    rewrite List.Forall_forall in F. apply F in Hin as [_ H]. discriminate.
Qed.

Lemma download_serves_the_writers_file_witness :
  exists path fourcc rate size,
    In (VideoWriter_open path fourcc rate size) (log (run Examples.env_ok).2)
    /\ disk_at_end Examples.env_ok !! path = Some [Byte.x00; Byte.x01].
Proof.
  destruct (download_serves_the_writers_file Examples.env_ok
              "⬇️ Download Processed Video" [Byte.x00; Byte.x01]
              "processed_rally.mp4" "video/mp4")
    as (up & path & fourcc & rate & size & _ & _ & _ & Hw & Hd).
  - vm_compute. tauto.
  - exists path, fourcc, rate, size. exact (conj Hw Hd).
Defined.

(** ** Size and type of the frames handed to the writer *)

Lemma shape_map_rows (g : Pixel -> Pixel) (rows : list (list Pixel)) :
  length (map (map g) rows) = length rows
  /\ length (hd [] (map (map g) rows)) = length (hd [] rows).
Proof.
  split; [apply length_map|]. destruct rows; simpl; [reflexivity|].
  apply length_map.
Qed.

Lemma shape_cvtColor (a : ndarray) :
  shape1 (cv2.cvtColor_RGB2BGR a) = shape1 a
  /\ shape0 (cv2.cvtColor_RGB2BGR a) = shape0 a
  /\ dtype (cv2.cvtColor_RGB2BGR a) = dtype a.
Proof.
  unfold shape1, shape0. simpl.
  destruct (shape_map_rows cv2.swap_rb (px a)) as [-> ->]. auto.
Qed.

Lemma shape_clip_scale (fl : Q -> Q) (a : ndarray) :
  shape1 (np.astype_uint8 (np.mul fl 255 (np.clip a 0 1))) = shape1 a
  /\ shape0 (np.astype_uint8 (np.mul fl 255 (np.clip a 0 1))) = shape0 a.
Proof.
  unfold shape1, shape0. simpl.
  repeat match goal with
         | |- context [map (map ?g) ?rows] =>
             destruct (shape_map_rows g rows) as [-> ->]
         end.
  auto.
Qed.

Lemma normalize_shape (env : Env) (W H : Z) (annotated : option ndarray)
    (frame a : ndarray) :
  resize_contract env ->
  normalize env W H annotated frame = inr a ->
  shape1 a = W /\ shape0 a = H /\ dtype a = uint8.
Proof.
  intros Hc En.
  destruct (normalize_returns env W H annotated frame a En)
    as (a1 & Hf & Hu & Hr & Hk).
  assert (Hd : dtype a1 = uint8).
  { destruct (decide (dtype (default frame annotated) = uint8)) as [E|E].
    - now rewrite (Hu E).
    - now rewrite (Hf E). }
  destruct (decide ((shape1 a1, shape0 a1) = (W, H))) as [E|E].
  - rewrite (Hk E). inversion E. auto.
  - destruct (Hc _ _ _ _ (Hr E)) as (? & ? & ?). repeat split; congruence.
Qed.

(** X15: when [cv2.resize] returns an image of the size it is asked for and of
    the same dtype, every frame handed to the writer in any run is [uint8]
    and has exactly the width and height the writer was opened with. *)
Theorem written_frames_fit_the_writer (env : Env) (up : UploadedFile) :
  resize_contract env ->
  uploaded_file env = Some up ->
  Forall (fun f =>
            shape1 f = width (VideoCapture env (video_path env up))
            /\ shape0 f = height (VideoCapture env (video_path env up))
            /\ dtype f = uint8)
    (frames_written (log (run env).2)).
Proof.
  intros Hc Hu. unfold frames_written.
  destruct (run_loop_view env)
    as [(_ & _ & _ & Hn)
       |(model & up' & pairs & t & _ & Hu' & _ & Ht & Fw & _ & Hv)].
  - rewrite Hn by now intros []. constructor.
  - assert (up' = up) by congruence. subst up'.
    rewrite Hv by now intros [].
    fold (frames_written (passes_events
            (frame_count (VideoCapture env (video_path env up))) 0 pairs)).
    rewrite frames_written_passes.
    assert (Et : omap (fun e => match e with
                                | writer_write f => Some f
                                | _ => None
                                end) t = []).
    { destruct (run env).1 as [[]| |e]; simpl in Ht.
      - now subst t.
      - contradiction.
      - now destruct Ht as [f ->]. }
    rewrite Et, app_nil_r. clear Hv Ht Et.
    induction Fw as [|[f out] ps (r & a & Em & En & Eo) _ IH]; simpl;
      [constructor|]. constructor; [|exact IH].
    simpl in Eo. subst out.
    destruct (normalize_shape env _ _ _ _ _ Hc En) as (H1 & H0 & Hd).
    destruct (shape_cvtColor a) as (-> & -> & ->). auto.
Qed.

Lemma nearest_resize_contract (env : Env) :
  resize env = Examples.nearest_resize -> resize_contract env.
Proof.
  intros E a w h b. rewrite E. unfold Examples.nearest_resize.
  destruct (decide (0 < w /\ 0 < h)) as [[Hw Hh]|N]; [|discriminate].
  intros Eb. inversion Eb; subst; clear Eb. unfold shape1, shape0. simpl.
  rewrite length_map, length_seq.
  destruct (Z.to_nat h) as [|n] eqn:En; [lia|]. simpl.
  rewrite length_map, length_seq. repeat split; lia.
Qed.

Lemma written_frames_fit_the_writer_witness :
  Forall (fun f => shape1 f = 3 /\ shape0 f = 1 /\ dtype f = uint8)
    (frames_written (log (run Examples.env_resizing).2)).
Proof.
  apply (written_frames_fit_the_writer Examples.env_resizing
           {| name := "rally.mp4"; content := [] |}).
  - now apply nearest_resize_contract.
  - reflexivity.
Defined.

(** The sample run with resizing writes two frames of 1 row and 3 columns. *)
Example resized_frames_written :
  map (fun f => (shape0 f, shape1 f))
    (frames_written (log (run Examples.env_resizing).2))
  = [(1, 3); (1, 3)].
Proof. reflexivity. Qed.

Lemma to_uint8_clip_integer (fa : FloatArith) (d : Dtype) (z : Z) :
  np.to_uint8 (round_to fa d (255 * np.clip1 0 1 (inject_Z z))) = 0%Q
  \/ np.to_uint8 (round_to fa d (255 * np.clip1 0 1 (inject_Z z))) = 255%Q.
Proof.
  destruct (to_uint8_clip fa d (inject_Z z))
    as (k & -> & _ & Hlo & Hhi & _).
  destruct (Z_le_gt_dec z 0) as [Hz|Hz].
  - left. rewrite Hlo; [reflexivity|].
    change (inject_Z z <= inject_Z 0)%Q. rewrite <- Zle_Qle. exact Hz.
  - right. rewrite Hhi; [reflexivity|].
    change (inject_Z 1 <= inject_Z z)%Q. rewrite <- Zle_Qle. lia.
Qed.

(** X16: an annotated image of the expected size whose dtype is not [uint8]
    and whose values are whole numbers (a [uint16] image, say) is normalized
    to pure black and white: every value of the result is 0 or 255. *)
Theorem whole_number_images_are_binarized (env : Env) (W H : Z)
    (a frame : ndarray) :
  dtype a <> uint8 ->
  integer_valued a ->
  (shape1 a, shape0 a) = (W, H) ->
  exists b,
    normalize env W H (Some a) frame = inr b
    /\ dtype b = uint8
    /\ black_or_white b.
Proof.
  intros Hd Hi Hs.
  exists (np.astype_uint8
            (np.mul (round_to (float_arith env) (dtype a)) 255
               (np.clip a 0 1))).
  split; [|split; [reflexivity|]].
  - unfold normalize.
    destruct (decide (dtype a <> uint8)) as [_|N]; [|contradiction].
    destruct (shape_clip_scale (round_to (float_arith env) (dtype a)) a)
      as [E1 E0].
    destruct (decide (_ <> (W, H))) as [N|_]; [|reflexivity].
    exfalso. apply N. rewrite E1, E0. exact Hs.
  - unfold black_or_white, integer_valued in *. simpl. rewrite !map_map.
    induction Hi as [|row rows Hrow _ IH]; simpl; [constructor|].
    constructor; [|exact IH]. rewrite !map_map.
    induction Hrow as [|[[c0 c1] c2] ps ((z0 & E0) & (z1 & E1) & (z2 & E2))
                        _ IHr]; simpl; [constructor|].
    constructor; [|exact IHr].
    simpl in *. subst. repeat split; apply to_uint8_clip_integer.
Qed.

Lemma whole_number_images_are_binarized_witness :
  exists b,
    normalize Examples.env_ok 2 2 (Some (Examples.img uint16 7))
      (Examples.img uint8 10) = inr b
    /\ dtype b = uint8
    /\ black_or_white b.
Proof.
  apply (whole_number_images_are_binarized Examples.env_ok 2 2).
  - discriminate.
  - unfold integer_valued. simpl.
    repeat constructor; simpl;
      first [now exists 7 | now exists 0 | now exists 1].
  - reflexivity.
Defined.

(** ** Which detections count *)

Lemma Py_int_in_scope (x : Q) :
  0 <= Py.int x <= 2 <-> (-1 < x)%Q /\ (x < 3)%Q.
Proof.
  unfold Py.int, Qlt. destruct x as [n d]. simpl.
  pose proof (Z.quot_rem' n (Z.pos d)) as E.
  assert (Hd : 0 < Z.pos d) by lia.
  destruct (Z_le_gt_dec 0 n) as [Hn|Hn].
  - pose proof (Z.rem_bound_pos n (Z.pos d) Hn Hd) as Hr.
    pose proof (Z.quot_pos n (Z.pos d) Hn Hd) as Hq. nia.
  - assert (Hn' : 0 <= - n) by lia.
    pose proof (Z.rem_bound_pos (- n) (Z.pos d) Hn' Hd) as Hr.
    pose proof (Z.quot_pos (- n) (Z.pos d) Hn' Hd) as Hq.
    rewrite Z.rem_opp_l in Hr by lia. rewrite Z.quot_opp_l in Hq by lia.
    nia.
Qed.

(** X17: a detection is counted ([cls_id in class_map], so that the sum of the
    counts grows by one) exactly when its raw class value lies strictly
    between -1 and 3: [int()] truncates towards zero, so a value such as 2.9
    counts as class 2 and -0.5 as class 0. *)
Theorem counted_iff_class_value_in_range (b : Box) (c : Counter.t) :
  (is_Some (class_map !! class_id b)
   <-> (-1 < cls0 b)%Q /\ (cls0 b < 3)%Q)
  /\ (Counter.total (count_shot c b) = Counter.total c + 1
      <-> (-1 < cls0 b)%Q /\ (cls0 b < 3)%Q).
Proof.
  assert (E : is_Some (class_map !! class_id b)
              <-> (-1 < cls0 b)%Q /\ (cls0 b < 3)%Q).
  { rewrite <- Py_int_in_scope. fold (class_id b).
    rewrite class_map_lookup.
    repeat destruct (decide _); split; intros H; try lia; eauto;
      destruct H; discriminate. }
  split; [exact E|]. rewrite <- E. unfold count_shot.
  destruct (class_map !! class_id b) as [l|].
  - rewrite Counter_total_incr. split; eauto.
  - split; [lia|]. intros [x Hx]. discriminate.
Qed.

(** A class value of -1/2 is counted as a forehand. *)
Example negative_half_is_a_forehand :
  count_shot Counter.empty {| cls0 := - (1 # 2) |} = [("Forehand", 1)].
Proof. reflexivity. Qed.
